(** * FullWash BLE configuration tool: a model of [tools/ble_config_tool.py]

    The tool talks to a washing-machine controller through the [bleak]
    transport library.  The Python text is embedded as functions of a small
    state / exception / history monad; the transport library is an oracle
    that answers every call as a function of the history of the run, so that
    a theorem quantified over the oracle covers every behaviour of the radio
    link (refused connections, lost links, garbage status bytes, calls that
    raise, ...).

    What is taken as given: [print] and [asyncio.sleep] complete;
    [asyncio.run] runs its coroutine and lets its exceptions through;
    [argparse] has parsed the command line into the [Namespace] that [main]
    dispatches on; [str.lower] is a function of the interpreter. *)

From Stdlib Require Import List ZArith QArith Bool Lia.
From Stdlib.Strings Require Import String Ascii Byte.
Import ListNotations.
Local Open Scope Z_scope.
Local Open Scope list_scope.

(** ** Python strings and bytes *)

(** A Python [str] is a sequence of Unicode code points, a [bytes] object a
    sequence of octets. *)
Definition str := list Z.
Definition bytes := list byte.

Definition byte_val (b : byte) : Z := Z.of_N (Byte.to_N b).

Definition byte_of_Z (z : Z) : byte :=
  match Byte.of_N (Z.to_N z) with
  | Some b => b
  | None => x00
  end.

Definition is_cont (b : Z) : bool := (0x80 <=? b) && (b <=? 0xBF).

(** [bytes.decode('utf-8')] with the default strict error handler: [None]
    stands for [UnicodeDecodeError].  Overlong forms, surrogates and values
    above U+10FFFF are rejected, as CPython does. *)
Fixpoint utf8_decode_Z (bs : list Z) : option str :=
  match bs with
  | [] => Some []
  | b0 :: t0 =>
    if b0 <? 0x80 then option_map (cons b0) (utf8_decode_Z t0)
    else if b0 <? 0xC2 then None
    else if b0 <? 0xE0 then
      match t0 with
      | b1 :: t1 =>
        if is_cont b1
        then option_map (cons ((b0 - 0xC0) * 64 + (b1 - 0x80))) (utf8_decode_Z t1)
        else None
      | _ => None
      end
    else if b0 <? 0xF0 then
      match t0 with
      | b1 :: b2 :: t2 =>
        let lo := if b0 =? 0xE0 then 0xA0 else 0x80 in
        let hi := if b0 =? 0xED then 0x9F else 0xBF in
        if (lo <=? b1) && (b1 <=? hi) && is_cont b2
        then option_map
               (cons ((b0 - 0xE0) * 4096 + (b1 - 0x80) * 64 + (b2 - 0x80)))
               (utf8_decode_Z t2)
        else None
      | _ => None
      end
    else if b0 <? 0xF5 then
      match t0 with
      | b1 :: b2 :: b3 :: t3 =>
        let lo := if b0 =? 0xF0 then 0x90 else 0x80 in
        let hi := if b0 =? 0xF4 then 0x8F else 0xBF in
        if (lo <=? b1) && (b1 <=? hi) && is_cont b2 && is_cont b3
        then option_map
               (cons ((b0 - 0xF0) * 262144 + (b1 - 0x80) * 4096
                      + (b2 - 0x80) * 64 + (b3 - 0x80)))
               (utf8_decode_Z t3)
        else None
      | _ => None
      end
    else None
  end.

Definition decode (b : bytes) : option str := utf8_decode_Z (map byte_val b).

(** One code point as UTF-8; [None] is [UnicodeEncodeError] (a lone surrogate,
    which [sys.argv] can carry). *)
Definition utf8_encode_cp (c : Z) : option (list Z) :=
  if c <? 0 then None
  else if c <? 0x80 then Some [c]
  else if c <? 0x800 then Some [0xC0 + c / 64; 0x80 + c mod 64]
  else if (0xD800 <=? c) && (c <=? 0xDFFF) then None
  else if c <? 0x10000 then
    Some [0xE0 + c / 4096; 0x80 + (c / 64) mod 64; 0x80 + c mod 64]
  else if c <? 0x110000 then
    Some [0xF0 + c / 262144; 0x80 + (c / 4096) mod 64;
          0x80 + (c / 64) mod 64; 0x80 + c mod 64]
  else None.

Fixpoint utf8_encode_Z (s : str) : option (list Z) :=
  match s with
  | [] => Some []
  | c :: t =>
    match utf8_encode_cp c, utf8_encode_Z t with
    | Some l, Some r => Some (l ++ r)
    | _, _ => None
    end
  end.

(** [str.encode()] *)
Definition encode (s : str) : option bytes :=
  option_map (map byte_of_Z) (utf8_encode_Z s).

(** A string literal of the (UTF-8) Python source file. *)
Definition lit (s : string) : str :=
  match decode (list_byte_of_string s) with
  | Some l => l
  | None => []
  end.

Fixpoint starts_with (p s : str) : bool :=
  match p, s with
  | [], _ => true
  | a :: p', b :: s' => (a =? b) && starts_with p' s'
  | _ :: _, [] => false
  end.

(** [needle in hay] on two [str]: the substring test. *)
Fixpoint str_in (needle hay : str) : bool :=
  starts_with needle hay ||
  match hay with
  | [] => false
  | _ :: t => str_in needle t
  end.

(** Truthiness of a [str] and of an optional [str] ([None] and [""] are
    falsy). *)
Definition truthy (o : option str) : bool :=
  match o with
  | Some (_ :: _) => true
  | _ => false
  end.

(** [x or default] for an optional [str]. *)
Definition or_else (o : option str) (d : str) : str :=
  if truthy o then match o with Some s => s | None => d end else d.

(** [f"{s:30}"]: a [str] is left-aligned and padded with spaces, never cut. *)
Definition ljust (w : nat) (s : str) : str :=
  s ++ repeat 32 (w - List.length s)%nat.

Fixpoint str_of_uint (d : Decimal.uint) : str :=
  match d with
  | Decimal.Nil => []
  | Decimal.D0 d => 48 :: str_of_uint d
  | Decimal.D1 d => 49 :: str_of_uint d
  | Decimal.D2 d => 50 :: str_of_uint d
  | Decimal.D3 d => 51 :: str_of_uint d
  | Decimal.D4 d => 52 :: str_of_uint d
  | Decimal.D5 d => 53 :: str_of_uint d
  | Decimal.D6 d => 54 :: str_of_uint d
  | Decimal.D7 d => 55 :: str_of_uint d
  | Decimal.D8 d => 56 :: str_of_uint d
  | Decimal.D9 d => 57 :: str_of_uint d
  end.

(** [str(n)] for an [int]. *)
Definition str_of_Z (z : Z) : str :=
  match Z.to_int z with
  | Decimal.Pos d => str_of_uint d
  | Decimal.Neg d => 45 :: str_of_uint d
  end.

(** The dynamically typed argument of [write_machine_number]: the command
    line hands it a [str], the docstring speaks of a number. *)
Inductive pyval :=
| PyStr (s : str)
| PyInt (z : Z).

(** [str(v)], also what an f-string does with [{v}]. *)
Definition py_str (v : pyval) : str :=
  match v with
  | PyStr s => s
  | PyInt z => str_of_Z z
  end.


(** ** Exceptions, devices and the trace of a run *)

(** The exceptions the program can meet.  [PyException] is any exception the
    transport raises that derives from [Exception] ([BleakError],
    [TimeoutError], [OSError], ...) with [str(e) = msg]; the three after it
    are raised by the interpreter itself and derive from [Exception] too;
    [PyBaseException] derives from [BaseException] only ([KeyboardInterrupt],
    [asyncio.CancelledError]); [SystemExit] is what [sys.exit] raises. *)
Inductive exn :=
| PyException (msg : str)
| UnicodeDecodeError (b : bytes)
| UnicodeEncodeError (s : str)
| AttributeError (attr : str)
| PyBaseException (msg : str)
| SystemExit (code : Z).

(** What [except Exception] catches. *)
Definition is_Exception (e : exn) : bool :=
  match e with
  | PyBaseException _ | SystemExit _ => false
  | _ => true
  end.

(** A scan result of [BleakScanner.discover]; [name] may be [None]. *)
Record BLEDevice := { dev_name : option str; dev_address : str }.

(** Everything a run does that can be seen from outside: console lines and
    calls into the transport, each call with the answer it got. *)
Inductive event :=
| Print (line : str)
| PrintError (e : exn)                 (* print(f"Error: {e}") *)
| PrintHelp                            (* parser.print_help() *)
| NewClient (address : str) (r : option exn)
| Connect (r : option exn)
| IsConnected (r : bool)
| Disconnect (r : option exn)
| WriteGattChar (uuid : str) (data : bytes) (r : option exn)
| ReadGattChar (uuid : str) (r : exn + bytes)
| Sleep (seconds : Q)
| Discover (timeout : Q) (r : exn + list BLEDevice).

(** The run so far, most recent event first. *)
Definition history := list event.

(** The transport library and the radio link behind it.  Every answer is a
    function of the history of the run so far and of the arguments of the
    call; [None] (or [inr]) is a call that completes, [Some e] (or [inl e]) a
    call that raises [e]. *)
Record Bleak := {
  new_client : history -> str -> option exn;
  client_connect : history -> option exn;
  client_is_connected : history -> bool;
  client_disconnect : history -> option exn;
  client_write_gatt_char : history -> str -> bytes -> option exn;
  client_read_gatt_char : history -> str -> exn + bytes;
  scanner_discover : history -> Q -> exn + list BLEDevice
}.

(** ** The monad: object state, exceptions, and the history *)

Inductive outcome (A : Type) :=
| Ret (a : A)
| Exc (e : exn).
Arguments Ret {A} a.
Arguments Exc {A} e.

(** A computation starts from the state of the object it works on and from
    the history of the run, and yields an outcome with the new state and the
    extended history.  State and history survive an exception. *)
Definition M (S A : Type) : Type :=
  S -> history -> outcome A * S * history.

Definition ret {S A} (a : A) : M S A := fun s h => (Ret a, s, h).

Definition bind {S A B} (m : M S A) (f : A -> M S B) : M S B :=
  fun s h =>
    match m s h with
    | (Ret a, s1, h1) => f a s1 h1
    | (Exc x, s1, h1) => (Exc x, s1, h1)
    end.

Notation "x <- m ;; k" := (bind m (fun x => k))
  (at level 61, m at next level, right associativity).
Notation "m ;; k" := (bind m (fun _ => k))
  (at level 61, right associativity).

Definition raise {S A} (x : exn) : M S A := fun s h => (Exc x, s, h).
Definition get {S} : M S S := fun s h => (Ret s, s, h).
Definition put {S} (s : S) : M S unit := fun _ h => (Ret tt, s, h).
Definition emit {S} (e : event) : M S unit := fun s h => (Ret tt, s, e :: h).
Definition print {S} (line : str) : M S unit := emit (Print line).

(** A call into the transport: ask the oracle, log the call with its answer. *)
Definition ask {S R} (q : history -> R) (log : R -> event) : M S R :=
  fun s h => (Ret (q h), s, log (q h) :: h).

Definition completes {S} (r : option exn) : M S unit :=
  match r with
  | None => ret tt
  | Some x => raise x
  end.

Definition value {S A} (r : exn + A) : M S A :=
  match r with
  | inr a => ret a
  | inl x => raise x
  end.

(** [try: m  except Exception as e: handler e] *)
Definition try_except {S A} (m : M S A) (handler : exn -> M S A) : M S A :=
  fun s h =>
    match m s h with
    | (Exc x, s1, h1) =>
      if is_Exception x then handler x s1 h1 else (Exc x, s1, h1)
    | r => r
    end.

(** [try: m  finally: fin]: [fin] always runs; when it raises, its exception
    replaces whatever [m] returned or raised. *)
Definition try_finally {S A} (m : M S A) (fin : M S unit) : M S A :=
  fun s h =>
    match m s h with
    | (o, s1, h1) =>
      match fin s1 h1 with
      | (Ret _, s2, h2) => (o, s2, h2)
      | (Exc x, s2, h2) => (Exc x, s2, h2)
      end
    end.

(** [obj = C(...)] followed by code that works on [obj]: the object is local
    to the command. *)
Definition with_object {S A} (s0 : S) (m : M S A) : M unit A :=
  fun _ h =>
    match m s0 h with
    | (o, _, h1) => (o, tt, h1)
    end.

(** A history that continues [h] with the events [evs], given in the order
    in which they happen. *)
Definition after (h : history) (evs : list event) : history := rev evs ++ h.

(** A command run by a fresh process: its outcome and the history it
    leaves. *)
Definition run {A} (m : M unit A) : outcome A * history :=
  match m tt [] with
  | (o, _, h) => (o, h)
  end.

(** The events of a history in the order in which they happened. *)
Definition trace (h : history) : list event := rev h.

(** ** Constants of the module *)

Definition SERVICE_UUID : str := lit "4fafc201-1fb5-459e-8fcc-c5c9c331914b".
Definition AUTH_CHAR_UUID : str := lit "beb5483e-36e1-4688-b7f5-ea07361b26a8".
Definition MACHINE_NUM_CHAR_UUID : str := lit "1c95d5e3-d8f7-413a-bf3d-7a2e5d7be87e".
Definition STATUS_CHAR_UUID : str := lit "d8de624e-140f-4a22-8594-e2216b84a5f2".

Definition DEFAULT_DEVICE_NAME : str := lit "FullWash Machine".
Definition DEFAULT_PASSWORD : str := lit "fullwash2025".

(** ** The program *)

Record BleakClient := { client_address : str }.

(** The attributes of a [FullWashBLEConfig] object; [client] is [None] until
    [connect] has built the transport handle. *)
Record FullWashBLEConfig := {
  device_address : str;
  password : str;
  client : option BleakClient
}.

(** [FullWashBLEConfig(device_address, password)] *)
Definition new_config (device_address password : str) : FullWashBLEConfig :=
  {| device_address := device_address; password := password; client := None |}.

Definition set_client (self : FullWashBLEConfig) (c : BleakClient) :=
  {| device_address := device_address self;
     password := password self;
     client := Some c |}.

(** What [argparse] hands to [main]: two [store_true] flags, two optional
    strings, and the password with its default. *)
Record Namespace := {
  args_scan : bool;
  args_read : bool;
  args_configure : option str;
  args_address : option str;
  args_password : str
}.

Section Program.

(** The transport the run talks to. *)
Variable T : Bleak.

(** [str.lower]: Python lower-cases with the Unicode character database,
    which is a table of the interpreter, not of this program. *)
Variable str_lower : str -> str.

(** [self.client.<method>]: an attribute of [None] is an [AttributeError]. *)
Definition client_method (method : str) : M FullWashBLEConfig BleakClient :=
  self <- get ;;
  match client self with
  | Some c => ret c
  | None => raise (AttributeError method)
  end.

Definition encoded {S} (s : str) : M S bytes :=
  match encode s with
  | Some b => ret b
  | None => raise (UnicodeEncodeError s)
  end.

Definition decoded {S} (b : bytes) : M S str :=
  match decode b with
  | Some s => ret s
  | None => raise (UnicodeDecodeError b)
  end.

Definition write_gatt_char {S} (uuid : str) (data : bytes) : M S unit :=
  r <- ask (fun h => client_write_gatt_char T h uuid data)
           (WriteGattChar uuid data) ;;
  completes r.

Definition read_gatt_char {S} (uuid : str) : M S bytes :=
  r <- ask (fun h => client_read_gatt_char T h uuid) (ReadGattChar uuid) ;;
  value r.

Definition sleep {S} (seconds : Q) : M S unit := emit (Sleep seconds).

Definition connect : M FullWashBLEConfig unit :=
  self <- get ;;
  print (lit "Connecting to " ++ device_address self ++ lit "...") ;;
  r <- ask (fun h => new_client T h (device_address self))
           (NewClient (device_address self)) ;;
  completes r ;;
  put (set_client self {| client_address := device_address self |}) ;;
  r <- ask (client_connect T) Connect ;;
  completes r ;;
  print (lit "Connected successfully!").

Definition disconnect : M FullWashBLEConfig unit :=
  self <- get ;;
  match client self with
  | None => ret tt
  | Some _ =>
    connected <- ask (client_is_connected T) IsConnected ;;
    if (connected : bool) then
      r <- ask (client_disconnect T) Disconnect ;;
      completes r ;;
      print (lit "Disconnected.")
    else ret tt
  end.

Definition authenticate : M FullWashBLEConfig bool :=
  print (lit "Authenticating...") ;;
  _ <- client_method (lit "write_gatt_char") ;;
  self <- get ;;
  data <- encoded (password self) ;;
  write_gatt_char AUTH_CHAR_UUID data ;;
  sleep (1 # 2) ;;
  _ <- client_method (lit "read_gatt_char") ;;
  status <- read_gatt_char STATUS_CHAR_UUID ;;
  status_str <- decoded status ;;
  print (lit "Status: " ++ status_str) ;;
  if str_in (lit "Authenticated") status_str then
    print (lit "✓ Authentication successful!") ;;
    ret true
  else
    print (lit "✗ Authentication failed!") ;;
    ret false.

Definition read_machine_number : M FullWashBLEConfig str :=
  _ <- client_method (lit "read_gatt_char") ;;
  machine_num <- read_gatt_char MACHINE_NUM_CHAR_UUID ;;
  decoded machine_num.

Definition write_machine_number (number : pyval) : M FullWashBLEConfig bool :=
  print (lit "Setting machine number to: " ++ py_str number) ;;
  _ <- client_method (lit "write_gatt_char") ;;
  data <- encoded (py_str number) ;;
  write_gatt_char MACHINE_NUM_CHAR_UUID data ;;
  sleep (1 # 2) ;;
  _ <- client_method (lit "read_gatt_char") ;;
  status <- read_gatt_char STATUS_CHAR_UUID ;;
  status_str <- decoded status ;;
  print (lit "Status: " ++ status_str) ;;
  if str_in (lit "success") (str_lower status_str) then
    print (lit "✓ Machine number updated successfully!") ;;
    print (lit "⚠️  RESTART THE MACHINE for changes to take effect") ;;
    ret true
  else
    print (lit "✗ Failed to update machine number") ;;
    ret false.

Definition get_status : M FullWashBLEConfig str :=
  _ <- client_method (lit "read_gatt_char") ;;
  status <- read_gatt_char STATUS_CHAR_UUID ;;
  decoded status.

(** [DEFAULT_DEVICE_NAME in (device.name or "")] *)
Definition is_fullwash (device : BLEDevice) : bool :=
  str_in DEFAULT_DEVICE_NAME (or_else (dev_name device) (lit "")).

(** The line [f"{prefix}{name:30} | {device.address}"] of one device. *)
Definition device_line (device : BLEDevice) : str :=
  let prefix := if is_fullwash device then lit ">>> " else lit "    " in
  let name := or_else (dev_name device) (lit "(Unknown)") in
  prefix ++ ljust 30 name ++ lit " | " ++ dev_address device.

(** The body of [for device in devices], with the list it appends to. *)
Fixpoint scan_loop (devices fullwash_devices : list BLEDevice)
  : M unit (list BLEDevice) :=
  match devices with
  | [] => ret fullwash_devices
  | device :: rest =>
    let fullwash_devices' :=
      if is_fullwash device then fullwash_devices ++ [device]
      else fullwash_devices in
    print (device_line device) ;;
    scan_loop rest fullwash_devices'
  end.

Definition rule : str := repeat 61 60.

Definition scan_devices : M unit (list BLEDevice) :=
  print (lit "Scanning for BLE devices...") ;;
  r <- ask (fun h => scanner_discover T h 5%Q) (Discover 5%Q) ;;
  devices <- value r ;;
  print ([10] ++ rule) ;;
  print (lit "Found Devices:") ;;
  print rule ;;
  fullwash_devices <- scan_loop devices [] ;;
  print rule ;;
  match fullwash_devices with
  | _ :: _ =>
    print ([10] ++ lit "✓ Found "
           ++ str_of_Z (Z.of_nat (List.length fullwash_devices))
           ++ lit " FullWash machine(s)") ;;
    ret fullwash_devices
  | [] =>
    print ([10] ++ lit "✗ No FullWash machines found") ;;
    print ([10] ++ lit "Troubleshooting:") ;;
    print (lit "  1. Ensure the machine is powered on") ;;
    print (lit "  2. Wait 5-10 seconds after power-on") ;;
    print (lit "  3. Move closer to the device") ;;
    print (lit "  4. Check that Bluetooth is enabled") ;;
    ret []
  end.

(** The [try] block of [read_configuration]. *)
Definition read_configuration_body : M FullWashBLEConfig unit :=
  connect ;;
  ok <- authenticate ;;
  if (ok : bool) then
    machine_num <- read_machine_number ;;
    print ([10] ++ lit "📋 Current Configuration:") ;;
    print (lit "   Machine Number: " ++ machine_num)
  else ret tt.

Definition read_configuration (device_address password : str) : M unit unit :=
  with_object (new_config device_address password)
    (try_finally
       (try_except read_configuration_body (fun e => emit (PrintError e)))
       disconnect).

(** The [try] block of [configure_machine]. *)
Definition configure_machine_body (machine_number : pyval)
  : M FullWashBLEConfig bool :=
  connect ;;
  ok <- authenticate ;;
  if negb ok then
    print (lit "Authentication failed. Cannot configure machine.") ;;
    ret false
  else
    current_num <- read_machine_number ;;
    print (lit "Current machine number: " ++ current_num) ;;
    written <- write_machine_number machine_number ;;
    if (written : bool) then
      new_num <- read_machine_number ;;
      print (lit "Verified new machine number: " ++ new_num) ;;
      ret true
    else ret false.

Definition configure_machine (device_address : str) (machine_number : pyval)
    (password : str) : M unit bool :=
  with_object (new_config device_address password)
    (try_finally
       (try_except (configure_machine_body machine_number)
                   (fun e => emit (PrintError e) ;; ret false))
       disconnect).

(** [sys.exit(code)] *)
Definition sys_exit {S A} (code : Z) : M S A := raise (SystemExit code).

(** The [str] behind a command-line option that is known to be set. *)
Definition the_str (o : option str) : str :=
  match o with
  | Some s => s
  | None => []
  end.

(** [main], after [parser.parse_args()] has produced [args].  [if args.x]
    and [if not args.x] are Python truth tests: [None] and [""] are false. *)
Definition main (args : Namespace) : M unit unit :=
  if args_scan args then
    _ <- scan_devices ;;
    ret tt
  else if args_read args then
    (if negb (truthy (args_address args)) then
       print (lit "Error: --address is required for --read") ;;
       emit PrintHelp ;;
       sys_exit 1
     else ret tt) ;;
    read_configuration (the_str (args_address args)) (args_password args)
  else if truthy (args_configure args) then
    (if negb (truthy (args_address args)) then
       print (lit "Error: --address is required for --configure") ;;
       emit PrintHelp ;;
       sys_exit 1
     else ret tt) ;;
    _ <- configure_machine (the_str (args_address args))
                           (PyStr (the_str (args_configure args)))
                           (args_password args) ;;
    ret tt
  else emit PrintHelp.

End Program.

(** The exit status of the process for an outcome of [main]: 0 when [main]
    returns, the code of a [SystemExit], and 1 (after a traceback) for any
    other exception that reaches the top.  (For a [KeyboardInterrupt] the
    interpreter ends with another number, not 0 either; the statements below
    use the value only for [SystemExit] and for exceptions that derive from
    [Exception].) *)
Definition exit_status (o : outcome unit) : Z :=
  match o with
  | Ret _ => 0
  | Exc (SystemExit code) => code
  | Exc _ => 1
  end.

(** ** Concrete links, for running the model *)

Fixpoint str_eqb (a b : str) : bool :=
  match a, b with
  | [], [] => true
  | x :: a', y :: b' => (x =? y) && str_eqb a' b'
  | _, _ => false
  end.

Definition is_write_to (uuid : str) (e : event) : bool :=
  match e with
  | WriteGattChar u _ _ => str_eqb u uuid
  | _ => false
  end.

Definition bytes_of (s : str) : bytes :=
  match encode s with
  | Some b => b
  | None => []
  end.

(** A link on which every call completes: the status attribute reads
    [status_auth] until the machine number has been written and
    [status_write] after; the machine-number attribute reads [number];
    a scan sees [devices]. *)
Definition steady_link (status_auth status_write number : str)
    (devices : list BLEDevice) : Bleak :=
  {| new_client := fun _ _ => None;
     client_connect := fun _ => None;
     client_is_connected := fun _ => true;
     client_disconnect := fun _ => None;
     client_write_gatt_char := fun _ _ _ => None;
     client_read_gatt_char := fun h uuid =>
       if str_eqb uuid STATUS_CHAR_UUID then
         if existsb (is_write_to MACHINE_NUM_CHAR_UUID) h
         then inr (bytes_of status_write)
         else inr (bytes_of status_auth)
       else inr (bytes_of number);
     scanner_discover := fun _ _ => inr devices |}.

(** The same link, on which a scan raises [x]. *)
Definition with_failing_discover (L : Bleak) (x : exn) : Bleak :=
  {| new_client := new_client L;
     client_connect := client_connect L;
     client_is_connected := client_is_connected L;
     client_disconnect := client_disconnect L;
     client_write_gatt_char := client_write_gatt_char L;
     client_read_gatt_char := client_read_gatt_char L;
     scanner_discover := fun _ _ => inl x |}.

(** The same link, on which the handle's [connect()] raises [x]. *)
Definition with_failing_connect (L : Bleak) (x : exn) : Bleak :=
  {| new_client := new_client L;
     client_connect := fun _ => Some x;
     client_is_connected := client_is_connected L;
     client_disconnect := client_disconnect L;
     client_write_gatt_char := client_write_gatt_char L;
     client_read_gatt_char := client_read_gatt_char L;
     scanner_discover := scanner_discover L |}.

(** The same link, on which the handle's [disconnect()] raises [x]. *)
Definition with_failing_disconnect (L : Bleak) (x : exn) : Bleak :=
  {| new_client := new_client L;
     client_connect := client_connect L;
     client_is_connected := client_is_connected L;
     client_disconnect := fun _ => Some x;
     client_write_gatt_char := client_write_gatt_char L;
     client_read_gatt_char := client_read_gatt_char L;
     scanner_discover := scanner_discover L |}.

(** [str.lower] on the ASCII letters. *)
Definition ascii_lower (s : str) : str :=
  map (fun c => if (65 <=? c) && (c <=? 90) then c + 32 else c) s.

Definition ns (scan read : bool) (configure address : option str) :=
  {| args_scan := scan; args_read := read; args_configure := configure;
     args_address := address; args_password := DEFAULT_PASSWORD |}.


Definition sample_devices : list BLEDevice :=
  [ {| dev_name := Some (lit "FullWash Machine 07");
       dev_address := lit "AA:BB:CC:DD:EE:01" |};
    {| dev_name := None; dev_address := lit "AA:BB:CC:DD:EE:02" |};
    {| dev_name := Some (lit "Kitchen speaker");
       dev_address := lit "AA:BB:CC:DD:EE:03" |} ].

(** A controller that accepts the password and the new number. *)
Definition good_link : Bleak :=
  steady_link (lit "Authenticated") (lit "Machine number: SUCCESS")
    (lit "7") sample_devices.

(** A controller that rejects the password. *)
Definition denied_link : Bleak :=
  steady_link (lit "Wrong password") (lit "Not authenticated")
    (lit "7") sample_devices.

Definition sample_address : str := lit "AA:BB:CC:DD:EE:01".

(** An object on which [connect] has succeeded. *)
Definition connected_config : FullWashBLEConfig :=
  set_client (new_config sample_address DEFAULT_PASSWORD)
             {| client_address := sample_address |}.

(** Exceptions a link can raise. *)
Definition link_lost : exn := PyException (lit "Not connected").
Definition bluetooth_off : exn :=
  PyException (lit "Bluetooth device is turned off").
Definition keyboard_interrupt : exn :=
  PyBaseException (lit "KeyboardInterrupt").

(** [--configure 42 --address ...] *)
Definition configure_42 : Namespace :=
  ns false false (Some (lit "42")) (Some sample_address).

(** [--configure abc --address ...] *)
Definition configure_abc : Namespace :=
  ns false false (Some (lit "abc")) (Some sample_address).

(** ** Observations on a run *)

(** [grows P h h']: the history [h'] continues [h], by events that all
    satisfy [P]. *)
Inductive grows (P : event -> Prop) (h : history) : history -> Prop :=
| grows_refl : grows P h h
| grows_cons e h' : P e -> grows P h h' -> grows P h (e :: h').

(** An event that is not an attribute write. *)
Definition no_write (e : event) : Prop :=
  match e with
  | WriteGattChar _ _ _ => False
  | _ => True
  end.

(** An event that is not a write to the attribute [uuid]. *)
Definition no_write_to (uuid : str) (e : event) : Prop :=
  match e with
  | WriteGattChar u _ _ => u <> uuid
  | _ => True
  end.

(** An event that, when it is an attribute write, writes [data] to [uuid]. *)
Definition writes_only (uuid : str) (data : option bytes) (e : event) : Prop :=
  match e with
  | WriteGattChar u d _ => u = uuid /\ data = Some d
  | _ => True
  end.

(** An event that is not a call of the handle's [connect()]. *)
Definition no_connect (e : event) : Prop :=
  match e with
  | Connect _ => False
  | _ => True
  end.

(** The ways in which [disconnect] can end a command whose [try] statement
    left the history [h_body]: there is no handle and [connect()] was never
    called; the handle reports that the link is down; the handle reports an
    open link and its [disconnect()] is called, and completes or raises. *)
Inductive closing (h_body : history) : list event -> Prop :=
| closing_never_opened :
    Forall no_connect h_body -> closing h_body []
| closing_link_down :
    closing h_body [IsConnected false]
| closing_disconnected :
    closing h_body
      [IsConnected true; Disconnect None; Print (lit "Disconnected.")]
| closing_disconnect_raised x :
    closing h_body [IsConnected true; Disconnect (Some x)].

(** Whether the radio link is open after a history, as the history tells:
    the most recent of the events that decide it is the answer.  A
    [connect()] that completed opened the link, a [disconnect()] that
    completed closed it, and an answer of the handle to [is_connected] is the
    state of the link at that moment; a call that raised, and every other
    event, leaves the link as it was.  At the start no link is open. *)
Fixpoint link_open (h : history) : bool :=
  match h with
  | [] => false
  | Connect None :: _ => true
  | Disconnect None :: _ => false
  | IsConnected b :: _ => b
  | _ :: h' => link_open h'
  end.

(** A history every call of which carries the answer that the transport [T]
    gives to it after the events before it. *)
Fixpoint answered_by (T : Bleak) (h : history) : Prop :=
  match h with
  | [] => True
  | e :: h' =>
    answered_by T h' /\
    match e with
    | NewClient a r => r = new_client T h' a
    | Connect r => r = client_connect T h'
    | IsConnected b => b = client_is_connected T h'
    | Disconnect r => r = client_disconnect T h'
    | WriteGattChar u d r => r = client_write_gatt_char T h' u d
    | ReadGattChar u r => r = client_read_gatt_char T h' u
    | Discover t r => r = scanner_discover T h' t
    | _ => True
    end
  end.

(** An event that is neither a question to the handle about the link nor
    its [disconnect()]. *)
Definition no_ask (e : event) : Prop :=
  match e with
  | IsConnected _ | Disconnect _ => False
  | _ => True
  end.

(** What [except Exception as e: print(f"Error: {e}"); return dflt] makes
    of the outcome [ob] of a [try] block that left the history [hb]. *)
Definition handled {A} (dflt : A) (ob : outcome A) (hb : history)
  : outcome A * history :=
  match ob with
  | Exc e => if is_Exception e then (Ret dflt, PrintError e :: hb) else (ob, hb)
  | Ret _ => (ob, hb)
  end.

(** What a [finally] clause with outcome [od] makes of the outcome [oc]. *)
Definition finally {A} (od : outcome unit) (oc : outcome A) : outcome A :=
  match od with
  | Ret _ => oc
  | Exc x => Exc x
  end.

(** The outcome of a call whose returned value is not used. *)
Definition discard {A} (o : outcome A) : outcome unit :=
  match o with
  | Ret _ => Ret tt
  | Exc x => Exc x
  end.

(** The characters of the decimal text of an integer: a digit or a minus
    sign. *)
Definition int_char (c : Z) : bool :=
  (c =? 45) || ((48 <=? c) && (c <=? 57)).

(** ** The events each operation can add *)

(** [connect]: console lines, building the handle for [addr], and its
    [connect()]. *)
Definition connect_event (addr : str) (e : event) : Prop :=
  match e with
  | Print _ | Connect _ => True
  | NewClient a _ => a = addr
  | _ => False
  end.

(** [authenticate]: console lines, the sleep, a write of the encoded
    password to the authentication attribute, a read of the status. *)
Definition authenticate_event (pw : str) (e : event) : Prop :=
  match e with
  | Print _ | Sleep _ => True
  | WriteGattChar u d _ => u = AUTH_CHAR_UUID /\ encode pw = Some d
  | ReadGattChar u _ => u = STATUS_CHAR_UUID
  | _ => False
  end.

(** [read_machine_number]: a read of the machine-number attribute. *)
Definition read_number_event (e : event) : Prop :=
  match e with
  | ReadGattChar u _ => u = MACHINE_NUM_CHAR_UUID
  | _ => False
  end.

(** [write_machine_number]: console lines, the sleep, a write of the encoded
    text of the number to the machine-number attribute, a read of the
    status. *)
Definition write_number_event (number : pyval) (e : event) : Prop :=
  match e with
  | Print _ | Sleep _ => True
  | WriteGattChar u d _ =>
    u = MACHINE_NUM_CHAR_UUID /\ encode (py_str number) = Some d
  | ReadGattChar u _ => u = STATUS_CHAR_UUID
  | _ => False
  end.

(** [disconnect]: the question to the handle, its [disconnect()], a console
    line. *)
Definition disconnect_event (e : event) : Prop :=
  match e with
  | IsConnected _ | Disconnect _ | Print _ => True
  | _ => False
  end.

(** [scan_devices]: console lines and the discovery. *)
Definition scan_event (e : event) : Prop :=
  match e with
  | Print _ | Discover _ _ => True
  | _ => False
  end.

(** An event that is not a read of the attribute [uuid]. *)
Definition no_read_of (uuid : str) (e : event) : Prop :=
  match e with
  | ReadGattChar u _ => u <> uuid
  | _ => True
  end.

(** An event that is neither a read nor a write of an attribute. *)
Definition no_gatt (e : event) : Prop :=
  match e with
  | WriteGattChar _ _ _ | ReadGattChar _ _ => False
  | _ => True
  end.

(** Calls into the transport, by kind. *)
Definition is_write (e : event) : bool :=
  match e with WriteGattChar _ _ _ => true | _ => false end.
Definition is_new_client (e : event) : bool :=
  match e with NewClient _ _ => true | _ => false end.
Definition is_connect (e : event) : bool :=
  match e with Connect _ => true | _ => false end.
Definition is_disconnect (e : event) : bool :=
  match e with Disconnect _ => true | _ => false end.

(** How many events of a history satisfy [p]. *)
Definition count (p : event -> bool) (h : history) : nat :=
  List.length (filter p h).

(** [within a b c m d h h']: from [h] to [h'] the run builds at most [a]
    handles, calls [connect()] at most [b] times, writes at most [c]
    attributes, of which at most [m] times the machine number, and calls
    [disconnect()] at most [d] times. *)
Definition within (a b c m d : nat) (h h' : history) : Prop :=
  (count is_new_client h' <= count is_new_client h + a
   /\ count is_connect h' <= count is_connect h + b
   /\ count is_write h' <= count is_write h + c
   /\ count (is_write_to MACHINE_NUM_CHAR_UUID) h'
      <= count (is_write_to MACHINE_NUM_CHAR_UUID) h + m
   /\ count is_disconnect h' <= count is_disconnect h + d)%nat.

(** The same link, on which the status attribute always reads [status]. *)
Definition with_status (L : Bleak) (status : bytes) : Bleak :=
  {| new_client := new_client L;
     client_connect := client_connect L;
     client_is_connected := client_is_connected L;
     client_disconnect := client_disconnect L;
     client_write_gatt_char := client_write_gatt_char L;
     client_read_gatt_char := fun h uuid =>
       if str_eqb uuid STATUS_CHAR_UUID then inr status
       else client_read_gatt_char L h uuid;
     scanner_discover := scanner_discover L |}.

(** The same link, on which the write to the attributes raises [x]. *)
Definition with_failing_write (L : Bleak) (x : exn) : Bleak :=
  {| new_client := new_client L;
     client_connect := client_connect L;
     client_is_connected := client_is_connected L;
     client_disconnect := client_disconnect L;
     client_write_gatt_char := fun _ _ _ => Some x;
     client_read_gatt_char := client_read_gatt_char L;
     scanner_discover := scanner_discover L |}.

(** The same link, on which the machine-number attribute cannot be read any
    more once it has been written. *)
Definition with_failing_readback (L : Bleak) (x : exn) : Bleak :=
  {| new_client := new_client L;
     client_connect := client_connect L;
     client_is_connected := client_is_connected L;
     client_disconnect := client_disconnect L;
     client_write_gatt_char := client_write_gatt_char L;
     client_read_gatt_char := fun h uuid =>
       if str_eqb uuid MACHINE_NUM_CHAR_UUID
          && existsb (is_write_to MACHINE_NUM_CHAR_UUID) h
       then inl x
       else client_read_gatt_char L h uuid;
     scanner_discover := scanner_discover L |}.

(** Text that no UTF-8 encoder accepts: a lone surrogate, as [sys.argv]
    carries for an undecodable byte of the command line. *)
Definition lone_surrogate : str := [0xDC80].

(** Bytes that are not UTF-8. *)
Definition garbled : bytes := [xff; xfe].

(** * Properties *)

(** ** The substring test *)

Lemma starts_with_spec (p s : str) :
  starts_with p s = true <-> exists post, s = p ++ post.
Proof.
  revert s; induction p as [|a p IH]; intros s; simpl.
  - split; [intros _; now exists s | reflexivity].
  - destruct s as [|b s].
    + split; [discriminate | intros [post H]; discriminate].
    + rewrite andb_true_iff, Z.eqb_eq, IH. split.
      * intros [-> [post ->]]. now exists post.
      * intros [post H]. injection H as -> ->. split; [reflexivity | now exists post].
Qed.

(** [str_in] is Python's [in]: the needle occurs somewhere in the hay. *)
Lemma str_in_spec (needle hay : str) :
  str_in needle hay = true <-> exists pre post, hay = pre ++ needle ++ post.
Proof.
  induction hay as [|c hay IH].
  - cbn [str_in]. rewrite orb_false_r, starts_with_spec. split.
    + intros [post H]. now exists [], post.
    + intros [pre [post H]]. destruct pre; [now exists post | discriminate].
  - cbn [str_in]. rewrite orb_true_iff, starts_with_spec, IH. split.
    + intros [[post H] | [pre [post H]]].
      * now exists [], post.
      * exists (c :: pre), post. now rewrite H.
    + intros [pre [post H]]. destruct pre as [|c' pre].
      * left. now exists post.
      * right. injection H as _ H. now exists pre, post.
Qed.

(** ** Running the methods *)

Local Opaque lit.

(** One step of symbolic execution: unfold the monad and the transport
    wrappers, leaving the oracle's answers and the codecs in place. *)
Ltac run_monad :=
  cbv beta iota zeta delta
    [bind ret raise get put emit print ask completes value
     try_except try_finally with_object run
     client_method encoded decoded write_gatt_char read_gatt_char sleep
     sys_exit].

Section Methods.

Variable T : Bleak.
Variable str_lower : str -> str.

(** C1.  On a connected object whose password encodes, when the write to the
    authentication attribute and the read of the status attribute complete
    and the status is valid UTF-8, [authenticate] writes the password to the
    authentication attribute, sleeps, reads the status attribute, and returns
    a boolean that is [True] exactly when the decoded status contains the
    substring "Authenticated" (and [False] otherwise). *)
Theorem authenticate_returns (self : FullWashBLEConfig) (c : BleakClient)
    (h : history) (data status : bytes) (status_str : str) :
  client self = Some c ->
  encode (password self) = Some data ->
  client_write_gatt_char T (after h [Print (lit "Authenticating...")])
    AUTH_CHAR_UUID data = None ->
  client_read_gatt_char T
    (after h [Print (lit "Authenticating...");
              WriteGattChar AUTH_CHAR_UUID data None; Sleep (1 # 2)])
    STATUS_CHAR_UUID = inr status ->
  decode status = Some status_str ->
  exists (b : bool) (verdict : str),
    authenticate T self h =
      (Ret b, self,
       after h [Print (lit "Authenticating...");
                WriteGattChar AUTH_CHAR_UUID data None;
                Sleep (1 # 2);
                ReadGattChar STATUS_CHAR_UUID (inr status);
                Print (lit "Status: " ++ status_str);
                Print verdict])
    /\ (b = true <->
        exists pre post, status_str = pre ++ lit "Authenticated" ++ post)
    /\ (b = false <-> str_in (lit "Authenticated") status_str = false).
Proof using T.
  intros Hc He Hw Hr Hd.
  unfold after in Hw, Hr |- *; cbn [rev app] in Hw, Hr |- *.
  exists (str_in (lit "Authenticated") status_str).
  exists (if str_in (lit "Authenticated") status_str
          then lit "✓ Authentication successful!"
          else lit "✗ Authentication failed!").
  split; [| split; [apply str_in_spec | reflexivity]].
  unfold authenticate. run_monad.
  rewrite Hc. run_monad. rewrite He. run_monad. rewrite Hw. run_monad.
  rewrite Hc. run_monad. rewrite Hr. run_monad. rewrite Hd. run_monad.
  destruct (str_in (lit "Authenticated") status_str); reflexivity.
Qed.

(** C2.  On a connected object, when the argument's text encodes, the write
    to the machine-number attribute and the read of the status attribute
    complete and the status is valid UTF-8, [write_machine_number] writes the
    text of its argument to the machine-number attribute, sleeps, reads the
    status attribute, and returns a boolean that is [True] exactly when the
    lower-cased status contains the substring "success". *)
Theorem write_machine_number_returns (self : FullWashBLEConfig)
    (c : BleakClient) (number : pyval) (h : history)
    (data status : bytes) (status_str : str) :
  let announce := Print (lit "Setting machine number to: " ++ py_str number) in
  client self = Some c ->
  encode (py_str number) = Some data ->
  client_write_gatt_char T (after h [announce]) MACHINE_NUM_CHAR_UUID data
    = None ->
  client_read_gatt_char T
    (after h [announce; WriteGattChar MACHINE_NUM_CHAR_UUID data None;
              Sleep (1 # 2)])
    STATUS_CHAR_UUID = inr status ->
  decode status = Some status_str ->
  exists (b : bool) (verdict : list event),
    write_machine_number T str_lower number self h =
      (Ret b, self,
       after h ([announce;
                 WriteGattChar MACHINE_NUM_CHAR_UUID data None;
                 Sleep (1 # 2);
                 ReadGattChar STATUS_CHAR_UUID (inr status);
                 Print (lit "Status: " ++ status_str)] ++ verdict))
    /\ Forall (fun e => exists line, e = Print line) verdict
    /\ (b = true <->
        exists pre post, str_lower status_str = pre ++ lit "success" ++ post)
    /\ (b = false <-> str_in (lit "success") (str_lower status_str) = false).
Proof.
  intros announce Hc He Hw Hr Hd.
  unfold after in Hw, Hr |- *; cbn [rev app] in Hw, Hr |- *.
  exists (str_in (lit "success") (str_lower status_str)).
  exists (if str_in (lit "success") (str_lower status_str)
          then [Print (lit "✓ Machine number updated successfully!");
                Print (lit "⚠️  RESTART THE MACHINE for changes to take effect")]
          else [Print (lit "✗ Failed to update machine number")]).
  split; [| split; [| split; [apply str_in_spec | reflexivity]]].
  - unfold write_machine_number. run_monad.
    rewrite Hc. run_monad. rewrite He. run_monad.
    fold announce. rewrite Hw. run_monad.
    rewrite Hc. run_monad. fold announce. rewrite Hr. run_monad. rewrite Hd. run_monad.
    destruct (str_in (lit "success") (str_lower status_str)); reflexivity.
  - destruct (str_in (lit "success") (str_lower status_str));
      repeat constructor; eexists; reflexivity.
Qed.

End Methods.

(** ** How the methods extend the history *)

Lemma grows_trans P h h1 h2 :
  grows P h h1 -> grows P h1 h2 -> grows P h h2.
Proof.
  intros H1 H2. induction H2; [assumption | now constructor].
Qed.

Lemma grows_weaken (P Q : event -> Prop) h h' :
  (forall e, P e -> Q e) -> grows P h h' -> grows Q h h'.
Proof.
  intros HPQ H. induction H; constructor; auto.
Qed.

Lemma grows_app P h h' :
  grows P h h' <-> exists evs, h' = evs ++ h /\ Forall P evs.
Proof.
  split.
  - intros H. induction H as [|e h' He _ [evs [-> IH]]].
    + now exists [].
    + exists (e :: evs). split; [reflexivity | now constructor].
  - intros [evs [-> H]]. induction H; cbn [app]; now constructor.
Qed.

Lemma grows_Forall P h h' : Forall P h -> grows P h h' -> Forall P h'.
Proof.
  intros Hh H. induction H; [assumption | now constructor].
Qed.

Lemma grows_In P h h' e : grows P h h' -> In e h' -> In e h \/ P e.
Proof.
  intros H. induction H as [|e' h' He _ IH]; [now left |].
  intros [-> | Hin]; [now right | auto].
Qed.

(** A history that continues [h] by the events [evs]. *)
Lemma grows_after P h h' :
  grows P h h' -> exists evs, h' = after h evs /\ Forall P evs.
Proof.
  intros H. apply grows_app in H. destruct H as [evs [-> H]].
  exists (rev evs). unfold after. rewrite rev_involutive.
  split; [reflexivity | now apply Forall_rev].
Qed.

Lemma uuid_auth_not_machine_num : AUTH_CHAR_UUID <> MACHINE_NUM_CHAR_UUID.
Proof. intros H. vm_compute in H. discriminate H. Qed.

(** Symbolic execution of a method body: split on every answer of the
    transport, on the codecs and on the tests of the program. *)
Ltac exec :=
  repeat
    (run_monad;
     match goal with
     | |- context [match client ?s with _ => _ end] =>
       destruct (client s) eqn:?
     | |- context [match encode ?x with _ => _ end] =>
       destruct (encode x) eqn:?
     | |- context [match decode ?x with _ => _ end] =>
       destruct (decode x) eqn:?
     | |- context [match new_client ?T ?h ?a with _ => _ end] =>
       destruct (new_client T h a) eqn:?
     | |- context [match client_connect ?T ?h with _ => _ end] =>
       destruct (client_connect T h) eqn:?
     | |- context [match client_disconnect ?T ?h with _ => _ end] =>
       destruct (client_disconnect T h) eqn:?
     | |- context [if client_is_connected ?T ?h then _ else _] =>
       destruct (client_is_connected T h) eqn:?
     | |- context [match client_write_gatt_char ?T ?h ?u ?d with _ => _ end] =>
       destruct (client_write_gatt_char T h u d) eqn:?
     | |- context [match client_read_gatt_char ?T ?h ?u with _ => _ end] =>
       destruct (client_read_gatt_char T h u) eqn:?
     | |- context [if str_in ?a ?b then _ else _] =>
       destruct (str_in a b) eqn:?
     end);
  run_monad.

Ltac frame_done :=
  let E := fresh "E" in
  intros E; inversion E; subst; clear E;
  repeat split;
  try solve [ repeat (constructor; cbn; auto)
            | intros; cbn in *; first [discriminate | congruence | eauto] ].

Ltac ok := first [reflexivity | eassumption].

Section Frames.

Variable T : Bleak.
Variable str_lower : str -> str.

Lemma connect_frame s h o s' h' :
  connect T s h = (o, s', h') ->
  grows no_write h h'
  /\ (o = Ret tt -> exists c, client s' = Some c)
  /\ (client s = None -> client s' = None -> grows no_connect h h').
Proof.
  unfold connect. exec; frame_done.
Qed.

Lemma authenticate_frame s h o s' h' :
  authenticate T s h = (o, s', h') ->
  s' = s
  /\ grows (writes_only AUTH_CHAR_UUID (encode (password s))) h h'.
Proof.
  unfold authenticate. exec; frame_done.
Qed.

Lemma read_machine_number_frame s h o s' h' :
  read_machine_number T s h = (o, s', h') ->
  s' = s /\ grows no_write h h'.
Proof.
  unfold read_machine_number. exec; frame_done.
Qed.

Lemma write_machine_number_frame n s h o s' h' :
  write_machine_number T str_lower n s h = (o, s', h') ->
  s' = s
  /\ grows (writes_only MACHINE_NUM_CHAR_UUID (encode (py_str n))) h h'.
Proof.
  unfold write_machine_number. exec; frame_done.
Qed.

(** The four ways in which [disconnect] ends. *)
Lemma disconnect_cases s h o s' h' :
  disconnect T s h = (o, s', h') ->
  s' = s /\
  ((client s = None /\ o = Ret tt /\ h' = h)
   \/ (o = Ret tt /\ h' = after h [IsConnected false])
   \/ (o = Ret tt /\
       h' = after h [IsConnected true; Disconnect None;
                     Print (lit "Disconnected.")])
   \/ (exists x, o = Exc x /\
       h' = after h [IsConnected true; Disconnect (Some x)])).
Proof.
  unfold disconnect. exec; intros E; inversion E; subst; clear E;
    (split; [reflexivity |]); unfold after; cbn [rev app]; eauto 8.
Qed.

(** The [try] block of [configure_machine], path by path. *)
Lemma configure_body_cases n s h o s' h' :
  configure_machine_body T str_lower n s h = (o, s', h') ->
  (exists x, o = Exc x /\ connect T s h = (Exc x, s', h'))
  \/ exists s1 h1,
      connect T s h = (Ret tt, s1, h1) /\ s' = s1 /\
      ((exists x, o = Exc x /\ authenticate T s1 h1 = (Exc x, s1, h'))
       \/ (exists h2,
            authenticate T s1 h1 = (Ret false, s1, h2) /\ o = Ret false /\
            h' = after h2
                   [Print (lit "Authentication failed. Cannot configure machine.")])
       \/ (exists h2,
            authenticate T s1 h1 = (Ret true, s1, h2) /\
            grows (writes_only MACHINE_NUM_CHAR_UUID (encode (py_str n))) h2 h' /\
            (o = Ret true ->
             exists h3 h4,
               grows no_write h2 h3 /\
               write_machine_number T str_lower n s1 h3 = (Ret true, s1, h4) /\
               grows no_write h4 h'))).
Proof.
  unfold configure_machine_body. run_monad.
  destruct (connect T s h) as [[[[]|x] s1] h1] eqn:Ec;
    [| intros E; inversion E; subst; left; eauto].
  destruct (authenticate T s1 h1) as [[[b|x] s2] h2] eqn:Ea;
    destruct (authenticate_frame _ _ _ _ _ Ea) as [-> _];
    [| intros E; inversion E; subst; right; eauto 10].
  destruct b; cbn [negb];
    [| intros E; inversion E; subst; right; do 2 eexists;
       split; [ok | split; [ok | right; left; eauto]]].
  destruct (read_machine_number T s1 h2) as [[[cur|x] s3] h3] eqn:Er;
    destruct (read_machine_number_frame _ _ _ _ _ Er) as [-> G3].
  2:{ intros E; inversion E; subst. right. do 2 eexists.
      split; [ok | split; [ok | right; right]].
      exists h2. split; [ok | split; [| discriminate]].
      eapply grows_weaken; [| exact G3]. now intros []. }
  set (h3' := Print (lit "Current machine number: " ++ cur) :: h3).
  assert (G3' : grows no_write h2 h3') by (constructor; [exact I | exact G3]).
  destruct (write_machine_number T str_lower n s1 h3') as [[[w|x] s4] h4] eqn:Ew;
    destruct (write_machine_number_frame _ _ _ _ _ _ Ew) as [-> G4].
  2:{ intros E; inversion E; subst. right. do 2 eexists.
      split; [ok | split; [ok | right; right]].
      exists h2. split; [ok | split; [| discriminate]].
      eapply grows_trans; [| exact G4].
      eapply grows_weaken; [| exact G3']. now intros []. }
  assert (G24 : grows (writes_only MACHINE_NUM_CHAR_UUID (encode (py_str n))) h2 h4).
  { eapply grows_trans; [| exact G4].
    eapply grows_weaken; [| exact G3']. now intros []. }
  destruct w.
  - destruct (read_machine_number T s1 h4) as [[[new|x] s5] h5] eqn:Er2;
      destruct (read_machine_number_frame _ _ _ _ _ Er2) as [-> G5].
    + intros E; inversion E; subst. right. do 2 eexists.
      split; [ok | split; [ok | right; right]].
      exists h2. split; [ok | split].
      * constructor; [exact I |]. eapply grows_trans; [exact G24 |].
        eapply grows_weaken; [| exact G5]. now intros [].
      * intros _. exists h3', h4. split; [exact G3' | split; [ok |]].
        constructor; [exact I | exact G5].
    + intros E; inversion E; subst. right. do 2 eexists.
      split; [ok | split; [ok | right; right]].
      exists h2. split; [ok | split; [| discriminate]].
      eapply grows_trans; [exact G24 |].
      eapply grows_weaken; [| exact G5]. now intros [].
  - intros E; inversion E; subst. right. do 2 eexists.
    split; [ok | split; [ok | right; right]].
    exists h2. split; [ok | split; [exact G24 | discriminate]].
Qed.

(** The [try] block of [read_configuration] writes nothing but the
    password. *)
Lemma read_body_frame s h o s' h' :
  read_configuration_body T s h = (o, s', h') ->
  grows (no_write_to MACHINE_NUM_CHAR_UUID) h h'.
Proof.
  assert (W : forall e, no_write e -> no_write_to MACHINE_NUM_CHAR_UUID e)
    by (now intros []).
  assert (A : forall p e, writes_only AUTH_CHAR_UUID p e ->
                          no_write_to MACHINE_NUM_CHAR_UUID e).
  { intros p [] H; cbn in *; auto. destruct H as [-> _].
    exact uuid_auth_not_machine_num. }
  unfold read_configuration_body. run_monad.
  destruct (connect T s h) as [[[[]|x] s1] h1] eqn:Ec;
    destruct (connect_frame _ _ _ _ _ Ec) as [G1 _];
    [| intros E; inversion E; subst;
       eapply grows_weaken; [exact W | eassumption]].
  destruct (authenticate T s1 h1) as [[[b|x] s2] h2] eqn:Ea;
    destruct (authenticate_frame _ _ _ _ _ Ea) as [-> G2];
    assert (G : grows (no_write_to MACHINE_NUM_CHAR_UUID) h h2)
      by (eapply grows_trans;
          [ eapply grows_weaken; [exact W | exact G1]
          | eapply grows_weaken; [apply A | exact G2] ]);
    [| intros E; inversion E; subst; exact G].
  destruct b; [| intros E; inversion E; subst; exact G].
  destruct (read_machine_number T s1 h2) as [[[cur|x] s3] h3] eqn:Er;
    destruct (read_machine_number_frame _ _ _ _ _ Er) as [-> G3];
    intros E; inversion E; subst;
    repeat (constructor; [exact I |]);
    (eapply grows_trans; [exact G |]);
    (eapply grows_weaken; [exact W | eassumption]).
Qed.

(** Neither [try] block forgets the handle: when the object has none at the
    end, [connect()] was never called. *)
Lemma configure_body_handle n s h o s' h' :
  configure_machine_body T str_lower n s h = (o, s', h') ->
  client s = None -> client s' = None -> grows no_connect h h'.
Proof.
  intros E Hs Hs'. apply configure_body_cases in E.
  destruct E as [[x [_ Ec]] | [s1 [h1 [Ec [-> _]]]]];
    destruct (connect_frame _ _ _ _ _ Ec) as [_ [Hc Hn]]; [now apply Hn |].
  destruct (Hc eq_refl) as [c Hc']. congruence.
Qed.

Lemma read_body_handle s h o s' h' :
  read_configuration_body T s h = (o, s', h') ->
  client s = None -> client s' = None -> grows no_connect h h'.
Proof.
  unfold read_configuration_body. run_monad.
  destruct (connect T s h) as [[[[]|x] s1] h1] eqn:Ec;
    destruct (connect_frame _ _ _ _ _ Ec) as [_ [Hc Hn]];
    [| intros E; inversion E; subst; auto].
  destruct (Hc eq_refl) as [c Hc'].
  destruct (authenticate T s1 h1) as [[[b|x] s2] h2] eqn:Ea;
    destruct (authenticate_frame _ _ _ _ _ Ea) as [-> _];
    [| intros E; inversion E; subst; congruence].
  destruct b; [| intros E; inversion E; subst; congruence].
  destruct (read_machine_number T s1 h2) as [[[cur|x] s3] h3] eqn:Er;
    destruct (read_machine_number_frame _ _ _ _ _ Er) as [-> _];
    intros E; inversion E; subst; congruence.
Qed.

End Frames.

(** ** The scan *)

Section Scan.

Variable T : Bleak.

Lemma scan_loop_run devices : forall acc s h,
  scan_loop devices acc s h =
    (Ret (acc ++ filter is_fullwash devices), s,
     rev (map (fun d => Print (device_line d)) devices) ++ h).
Proof.
  induction devices as [|d devices IH]; intros acc s h; cbn [scan_loop].
  - run_monad. cbn. now rewrite app_nil_r.
  - run_monad. rewrite IH. cbn [filter map rev].
    destruct (is_fullwash d); rewrite <- ?app_assoc; reflexivity.
Qed.

Lemma is_fullwash_spec d :
  is_fullwash d = true <->
  exists nm pre post,
    dev_name d = Some nm /\ nm = pre ++ DEFAULT_DEVICE_NAME ++ post.
Proof.
  assert (E : str_in DEFAULT_DEVICE_NAME (lit "") = false) by reflexivity.
  unfold is_fullwash, or_else, truthy.
  destruct (dev_name d) as [[|c nm]|].
  - rewrite E. split; [discriminate |].
    intros [nm [pre [post [H1 H2]]]]. injection H1 as <-.
    assert (H : str_in DEFAULT_DEVICE_NAME [] = true)
      by (apply str_in_spec; eauto).
    discriminate H.
  - rewrite str_in_spec. split.
    + intros [pre [post H]]. eauto 6.
    + intros [nm' [pre [post [H1 H2]]]]. injection H1 as <-. eauto.
  - rewrite E. split; [discriminate |].
    intros [nm [pre [post [H1 _]]]]. discriminate H1.
Qed.

(** The run of [scan_devices] when discovery returns [devices]: the history
    it leaves, most recent event first. *)
Lemma scan_devices_run devices :
  scanner_discover T [Print (lit "Scanning for BLE devices...")] 5 = inr devices ->
  exists summary,
    run (scan_devices T) =
      (Ret (filter is_fullwash devices),
       summary
       ++ rev (map (fun d => Print (device_line d)) devices)
       ++ [Print rule; Print (lit "Found Devices:"); Print ([10] ++ rule);
           Discover 5 (inr devices);
           Print (lit "Scanning for BLE devices...")]).
Proof.
  intros Hd. unfold run, scan_devices. run_monad. rewrite Hd. run_monad.
  rewrite scan_loop_run. cbn [app].
  destruct (filter is_fullwash devices) as [|d l] eqn:Ef; run_monad.
  - exists [Print (lit "  4. Check that Bluetooth is enabled");
            Print (lit "  3. Move closer to the device");
            Print (lit "  2. Wait 5-10 seconds after power-on");
            Print (lit "  1. Ensure the machine is powered on");
            Print ([10] ++ lit "Troubleshooting:");
            Print ([10] ++ lit "✗ No FullWash machines found");
            Print rule].
    reflexivity.
  - exists [Print ([10] ++ lit "✓ Found "
                   ++ str_of_Z (Z.of_nat (List.length (d :: l)))
                   ++ lit " FullWash machine(s)");
            Print rule].
    reflexivity.
Qed.

(** Every discovered device has its line on the console. *)
Lemma scan_devices_lines devices d :
  scanner_discover T [Print (lit "Scanning for BLE devices...")] 5 = inr devices ->
  In d devices ->
  In (Print (device_line d)) (snd (run (scan_devices T))).
Proof.
  intros Hd Hin. destruct (scan_devices_run devices Hd) as [summary ->].
  cbn [snd]. apply in_or_app. right. apply in_or_app. left.
  apply -> in_rev. now apply (in_map (fun d => Print (device_line d))).
Qed.

(** C6.  When discovery (with its fixed window of 5 seconds) returns
    [devices], [scan_devices] returns exactly the devices whose advertised
    name contains "FullWash Machine", in the order of discovery (the empty
    list when there is none), after printing one line for every device. *)
Theorem scan_devices_returns (devices : list BLEDevice) :
  scanner_discover T [Print (lit "Scanning for BLE devices...")] 5 = inr devices ->
  fst (run (scan_devices T)) = Ret (filter is_fullwash devices)
  /\ In (Discover 5 (inr devices)) (snd (run (scan_devices T)))
  /\ (forall d, In d (filter is_fullwash devices) <->
                In d devices /\
                exists nm pre post,
                  dev_name d = Some nm /\
                  nm = pre ++ lit "FullWash Machine" ++ post)
  /\ (forall d, In d devices ->
                In (Print (device_line d)) (snd (run (scan_devices T)))).
Proof.
  intros Hd. split; [| split; [| split]].
  - destruct (scan_devices_run devices Hd) as [summary ->]. reflexivity.
  - destruct (scan_devices_run devices Hd) as [summary ->]. cbn [snd].
    apply in_or_app. right. apply in_or_app. right. cbn. auto.
  - intros d. rewrite filter_In, is_fullwash_spec. reflexivity.
  - intros d Hin. now apply scan_devices_lines with (devices := devices).
Qed.

(** C10.  A discovered device whose advertised name is [None] does not make
    the scan fail: the scan returns, the device is not among the FullWash
    machines it returns, and its line shows the placeholder "(Unknown)"
    behind the prefix of the other devices. *)
Theorem scan_devices_nameless (devices : list BLEDevice) (d : BLEDevice) :
  scanner_discover T [Print (lit "Scanning for BLE devices...")] 5 = inr devices ->
  In d devices ->
  dev_name d = None ->
  exists found,
    fst (run (scan_devices T)) = Ret found
    /\ ~ In d found
    /\ is_fullwash d = false
    /\ In (Print (lit "    " ++ ljust 30 (lit "(Unknown)") ++ lit " | "
                  ++ dev_address d))
          (snd (run (scan_devices T))).
Proof.
  intros Hd Hin Hn.
  assert (Hfw : is_fullwash d = false).
  { destruct (is_fullwash d) eqn:E; [| reflexivity].
    apply is_fullwash_spec in E. destruct E as [nm [_ [_ [E _]]]]. congruence. }
  exists (filter is_fullwash devices).
  split; [| split; [| split; [exact Hfw |]]].
  - destruct (scan_devices_run devices Hd) as [summary ->]. reflexivity.
  - intros H. apply filter_In in H. destruct H as [_ H]. congruence.
  - pose proof (scan_devices_lines devices d Hd Hin) as Hl.
    unfold device_line in Hl.
    rewrite Hfw in Hl. unfold or_else in Hl. rewrite Hn in Hl. exact Hl.
Qed.

End Scan.

(** ** The commands *)

Lemma no_write_weaken uuid e : no_write e -> no_write_to uuid e.
Proof. now destruct e. Qed.

Lemma auth_write_not_machine_num p e :
  writes_only AUTH_CHAR_UUID p e -> no_write_to MACHINE_NUM_CHAR_UUID e.
Proof.
  destruct e; cbn; auto. intros [-> _]. exact uuid_auth_not_machine_num.
Qed.

Lemma in_after e h evs : In e (after h evs) <-> In e h \/ In e evs.
Proof.
  unfold after. rewrite in_app_iff, <- in_rev. tauto.
Qed.

Lemma after_after h a b : after (after h a) b = after h (a ++ b).
Proof.
  unfold after. now rewrite rev_app_distr, app_assoc.
Qed.

Lemma grows_from_nil P h e : grows P [] h -> In e h -> P e.
Proof.
  intros G Hin. destruct (grows_In _ _ _ e G Hin) as [[] | H]. exact H.
Qed.

Section Commands.

Variable T : Bleak.
Variable str_lower : str -> str.

(** [configure_machine] is its [try] block, the handler, and [disconnect]. *)
Lemma configure_machine_run addr n pw ob sb hb od sd hd :
  configure_machine_body T str_lower n (new_config addr pw) [] = (ob, sb, hb) ->
  disconnect T sb (snd (handled false ob hb)) = (od, sd, hd) ->
  run (configure_machine T str_lower addr n pw)
  = (finally od (fst (handled false ob hb)), hd).
Proof.
  intros Eb Ed. unfold run, configure_machine. run_monad. rewrite Eb.
  unfold handled in *.
  destruct ob as [b|e]; [| destruct (is_Exception e)];
    cbn [fst snd] in *; rewrite Ed; destruct od; reflexivity.
Qed.

Lemma read_configuration_run addr pw ob sb hb od sd hd :
  read_configuration_body T (new_config addr pw) [] = (ob, sb, hb) ->
  disconnect T sb (snd (handled tt ob hb)) = (od, sd, hd) ->
  run (read_configuration T addr pw)
  = (finally od (fst (handled tt ob hb)), hd).
Proof.
  intros Eb Ed. unfold run, read_configuration. run_monad. rewrite Eb.
  unfold handled in *.
  destruct ob as [[]|e]; [| destruct (is_Exception e)];
    cbn [fst snd] in *; rewrite Ed; destruct od; reflexivity.
Qed.

(** The handler and [disconnect] write no attribute. *)
Lemma handled_grows {A} (dflt : A) ob hb :
  grows no_write hb (snd (handled dflt ob hb)).
Proof.
  unfold handled. destruct ob as [a|e]; [| destruct (is_Exception e)];
    cbn [snd]; repeat constructor.
Qed.

Lemma disconnect_grows s h o s' h' :
  disconnect T s h = (o, s', h') -> grows no_write h h'.
Proof.
  intros E. apply disconnect_cases in E.
  destruct E as [_ [[_ [_ ->]] | [[_ ->] | [[_ ->] | [x [_ ->]]]]]];
    unfold after; cbn [rev app]; repeat constructor.
Qed.

(** The [try] block of [configure_machine] writes the machine-number
    attribute only in a history in which [authenticate] has returned [True]. *)
Lemma configure_body_gate addr n pw ob sb hb :
  configure_machine_body T str_lower n (new_config addr pw) [] = (ob, sb, hb) ->
  grows (no_write_to MACHINE_NUM_CHAR_UUID) [] hb
  \/ exists s1 h1 h2,
       connect T (new_config addr pw) [] = (Ret tt, s1, h1) /\
       authenticate T s1 h1 = (Ret true, s1, h2) /\
       grows (no_write_to MACHINE_NUM_CHAR_UUID) [] h2 /\
       grows (writes_only MACHINE_NUM_CHAR_UUID (encode (py_str n))) h2 hb.
Proof.
  intros Eb. apply configure_body_cases in Eb.
  destruct Eb as [[x [_ Ec]] | [s1 [h1 [Ec [-> Eb]]]]];
    destruct (connect_frame _ _ _ _ _ _ Ec) as [G1 _];
    apply (grows_weaken _ _ _ _ (no_write_weaken MACHINE_NUM_CHAR_UUID)) in G1;
    [now left |].
  destruct Eb as [[x [_ Ea]] | [[h2 [Ea [_ ->]]] | [h2 [Ea [G _]]]]];
    destruct (authenticate_frame _ _ _ _ _ _ Ea) as [_ G2];
    apply (grows_weaken _ _ _ _ (auth_write_not_machine_num _)) in G2.
  - left. eapply grows_trans; eassumption.
  - left. unfold after. cbn [rev app]. constructor; [exact I |].
    eapply grows_trans; eassumption.
  - right. exists s1, h1, h2. repeat split; try assumption.
    eapply grows_trans; eassumption.
Qed.

(** C3 (as the program has it).  In every run of [configure_machine], a
    write to the machine-number attribute happens only after [authenticate]
    has returned [True]: the write lies in the part of the history that
    follows that return, and nothing before it touches the attribute.  When
    [authenticate] returns [False], the command writes no attribute after
    that (the password written by [authenticate] itself is the only write of
    the run, and the machine-number attribute is never written), and it
    returns [False] unless the closing [disconnect()] of the handle raises,
    in which case that exception leaves the command. *)
Theorem configure_machine_gated (addr : str) (n : pyval) (pw : str) :
  let cfg := new_config addr pw in
  let r := run (configure_machine T str_lower addr n pw) in
  (forall d a,
     In (WriteGattChar MACHINE_NUM_CHAR_UUID d a) (snd r) ->
     exists s1 h1 h2 rest,
       connect T cfg [] = (Ret tt, s1, h1) /\
       authenticate T s1 h1 = (Ret true, s1, h2) /\
       Forall (no_write_to MACHINE_NUM_CHAR_UUID) h2 /\
       snd r = after h2 rest /\
       In (WriteGattChar MACHINE_NUM_CHAR_UUID d a) rest)
  /\
  (forall s1 h1 s2 h2,
     connect T cfg [] = (Ret tt, s1, h1) ->
     authenticate T s1 h1 = (Ret false, s2, h2) ->
     exists rest,
       snd r = after h2 rest /\
       Forall no_write rest /\
       Forall (no_write_to MACHINE_NUM_CHAR_UUID) (snd r) /\
       (fst r = Ret false \/
        exists x, fst r = Exc x /\ In (Disconnect (Some x)) rest)).
Proof.
  intros cfg r. subst r.
  destruct (configure_machine_body T str_lower n cfg []) as [[ob sb] hb] eqn:Eb.
  destruct (disconnect T sb (snd (handled false ob hb))) as [[od sd] hd] eqn:Ed.
  rewrite (configure_machine_run _ _ _ _ _ _ _ _ _ Eb Ed). cbn [fst snd].
  assert (Gt : grows no_write hb hd).
  { eapply grows_trans; [apply (handled_grows false ob) |].
    eapply disconnect_grows; eassumption. }
  split.
  - intros d a Hin.
    destruct (configure_body_gate _ _ _ _ _ _ Eb)
      as [G | [s1 [h1 [h2 [Ec [Ea [G2 G]]]]]]].
    + exfalso.
      assert (G' : grows (no_write_to MACHINE_NUM_CHAR_UUID) [] hd).
      { eapply grows_trans; [exact G |].
        eapply grows_weaken; [apply no_write_weaken | exact Gt]. }
      exact (grows_from_nil _ _ _ G' Hin eq_refl).
    + assert (G' : grows (fun _ => True) h2 hd).
      { eapply grows_trans; eapply grows_weaken; eauto; now intros. }
      apply grows_after in G'. destruct G' as [rest [-> _]].
      exists s1, h1, h2, rest. repeat split; try assumption.
      * eapply grows_Forall; [constructor | exact G2].
      * apply in_after in Hin. destruct Hin as [Hin | Hin]; [| exact Hin].
        exfalso. exact (grows_from_nil _ _ _ G2 Hin eq_refl).
  - intros s1 h1 s2 h2 Ec Ea.
    destruct (authenticate_frame _ _ _ _ _ _ Ea) as [-> G2].
    destruct (connect_frame _ _ _ _ _ _ Ec) as [G1 _].
    apply configure_body_cases in Eb.
    destruct Eb as [[x [_ Ec']] | [s1' [h1' [Ec' [-> Eb]]]]]; [congruence |].
    rewrite Ec in Ec'. injection Ec' as <- <-.
    destruct Eb as [[x [_ Ea']] | [[h2' [Ea' [-> ->]]] | [h2' [Ea' _]]]];
      [congruence | | congruence].
    rewrite Ea in Ea'. injection Ea' as <-.
    cbn [handled fst snd] in *.
    assert (Gall : grows (no_write_to MACHINE_NUM_CHAR_UUID) [] hd).
    { eapply grows_trans;
        [| eapply grows_weaken; [apply no_write_weaken | exact Gt]].
      unfold after. cbn [rev app]. constructor; [exact I |].
      eapply grows_trans.
      - eapply grows_weaken; [apply no_write_weaken | exact G1].
      - eapply grows_weaken; [apply auth_write_not_machine_num | exact G2]. }
    apply disconnect_cases in Ed.
    destruct Ed as [_ [[_ [-> ->]] | [[-> ->] | [[-> ->] | [x [-> ->]]]]]];
      rewrite ?after_after; eexists;
      (split; [reflexivity |]);
      (split; [repeat constructor |]);
      (split; [eapply grows_Forall; [constructor | exact Gall] |]);
      cbn [finally]; try (now left).
    right. exists x. split; [reflexivity |]. cbn. auto.
Qed.

(** [disconnect] closes what the [try] statement left. *)
Lemma closing_of_disconnect s h o s' h' :
  disconnect T s h = (o, s', h') ->
  (client s = None -> Forall no_connect h) ->
  exists e_disc, h' = after h e_disc /\ closing h e_disc.
Proof.
  intros E Hn. apply disconnect_cases in E.
  destruct E as [_ [[Hc [_ ->]] | [[_ ->] | [[_ ->] | [x [_ ->]]]]]].
  - exists []. split; [reflexivity | constructor; auto].
  - eexists. split; [reflexivity | constructor].
  - eexists. split; [reflexivity | constructor].
  - eexists. split; [reflexivity | constructor].
Qed.

(** An exception leaves [configure_machine] only when it does not derive
    from [Exception] or when the closing [disconnect()] raised it. *)
Lemma configure_machine_escape addr n pw x :
  fst (run (configure_machine T str_lower addr n pw)) = Exc x ->
  is_Exception x = false
  \/ exists h,
       snd (run (configure_machine T str_lower addr n pw))
       = after h [IsConnected true; Disconnect (Some x)].
Proof.
  destruct (configure_machine_body T str_lower n (new_config addr pw) [])
    as [[ob sb] hb] eqn:Eb.
  destruct (disconnect T sb (snd (handled false ob hb))) as [[od sd] hd] eqn:Ed.
  rewrite (configure_machine_run _ _ _ _ _ _ _ _ _ Eb Ed). cbn [fst snd].
  apply disconnect_cases in Ed.
  destruct Ed as [_ [[_ [-> ->]] | [[-> ->] | [[-> ->] | [y [-> ->]]]]]];
    cbn [finally]; try (intros E; injection E as ->; right; eauto);
    unfold handled; destruct ob as [b|e]; try discriminate;
    destruct (is_Exception e) eqn:Ee; try discriminate;
    cbn [fst]; intros E; injection E as <-; now left.
Qed.

Lemma read_configuration_escape addr pw x :
  fst (run (read_configuration T addr pw)) = Exc x ->
  is_Exception x = false
  \/ exists h,
       snd (run (read_configuration T addr pw))
       = after h [IsConnected true; Disconnect (Some x)].
Proof.
  destruct (read_configuration_body T (new_config addr pw) [])
    as [[ob sb] hb] eqn:Eb.
  destruct (disconnect T sb (snd (handled tt ob hb))) as [[od sd] hd] eqn:Ed.
  rewrite (read_configuration_run _ _ _ _ _ _ _ _ Eb Ed). cbn [fst snd].
  apply disconnect_cases in Ed.
  destruct Ed as [_ [[_ [-> ->]] | [[-> ->] | [[-> ->] | [y [-> ->]]]]]];
    cbn [finally]; try (intros E; injection E as ->; right; eauto);
    unfold handled; destruct ob as [b|e]; try discriminate;
    destruct (is_Exception e) eqn:Ee; try discriminate;
    cbn [fst]; intros E; injection E as <-; now left.
Qed.

(** The one path on which [configure_machine] returns [True]. *)
Lemma configure_machine_true_path addr n pw :
  fst (run (configure_machine T str_lower addr n pw)) = Ret true ->
  exists s1 h1 h2 cur h3 h4 new h5,
    connect T (new_config addr pw) [] = (Ret tt, s1, h1)
    /\ authenticate T s1 h1 = (Ret true, s1, h2)
    /\ read_machine_number T s1 h2 = (Ret cur, s1, h3)
    /\ write_machine_number T str_lower n s1
         (after h3 [Print (lit "Current machine number: " ++ cur)])
       = (Ret true, s1, h4)
    /\ read_machine_number T s1 h4 = (Ret new, s1, h5)
    /\ disconnect T s1
         (after h5 [Print (lit "Verified new machine number: " ++ new)])
       = (Ret tt, s1, snd (run (configure_machine T str_lower addr n pw))).
Proof.
  unfold after. cbn [rev app].
  destruct (configure_machine_body T str_lower n (new_config addr pw) [])
    as [[ob sb] hb] eqn:Eb.
  destruct (disconnect T sb (snd (handled false ob hb)))
    as [[od sd] hd] eqn:Ed.
  rewrite (configure_machine_run _ _ _ _ _ _ _ _ _ Eb Ed). cbn [fst snd].
  intros Hr.
  assert (Hob : ob = Ret true /\ od = Ret tt).
  { destruct od as [[]|]; [| discriminate]. cbn [finally] in Hr.
    unfold handled in Hr.
    destruct ob as [b|e]; [cbn [fst] in Hr; rewrite Hr; auto |].
    destruct (is_Exception e); discriminate. }
  destruct Hob as [-> ->]. cbn [handled snd] in Ed.
  destruct (disconnect_cases _ _ _ _ _ _ Ed) as [-> _].
  revert Eb. unfold configure_machine_body. run_monad.
  destruct (connect T (new_config addr pw) []) as [[[[]|x] s1] h1] eqn:Ec;
    [| discriminate].
  destruct (authenticate T s1 h1) as [[[b|x] s2] h2] eqn:Ea;
    [| discriminate].
  destruct (authenticate_frame _ _ _ _ _ _ Ea) as [-> _].
  destruct b; cbn [negb]; [| discriminate].
  destruct (read_machine_number T s1 h2) as [[[cur|x] s3] h3] eqn:Er;
    [| discriminate].
  destruct (read_machine_number_frame _ _ _ _ _ _ Er) as [-> _].
  destruct (write_machine_number T str_lower n s1 _)
    as [[[w|x] s4] h4] eqn:Ew; [| discriminate].
  destruct (write_machine_number_frame _ _ _ _ _ _ _ _ Ew) as [-> _].
  destruct w; [| discriminate].
  destruct (read_machine_number T s1 h4) as [[[new|x] s5] h5] eqn:Er2;
    [| discriminate].
  destruct (read_machine_number_frame _ _ _ _ _ _ Er2) as [-> _].
  intros E. inversion E; subst.
  exists sb, h1, h2, cur, h3, h4, new, h5. auto 10.
Qed.

(** When the [try] block of [configure_machine] returns [False], so does
    the command, unless the closing [disconnect()] raises. *)
Lemma configure_machine_after_false addr n pw sb hb :
  configure_machine_body T str_lower n (new_config addr pw) []
  = (Ret false, sb, hb) ->
  let rc := run (configure_machine T str_lower addr n pw) in
  fst rc = Ret false \/
  exists x h, fst rc = Exc x /\
              snd rc = after h [IsConnected true; Disconnect (Some x)].
Proof.
  intros Eb rc. subst rc.
  destruct (disconnect T sb (snd (handled false (Ret false) hb)))
    as [[od sd] hd] eqn:Ed.
  rewrite (configure_machine_run _ _ _ _ _ _ _ _ _ Eb Ed).
  cbn [handled fst snd] in *.
  apply disconnect_cases in Ed.
  destruct Ed as [_ [[_ [-> ->]] | [[-> ->] | [[-> ->] | [x [-> ->]]]]]];
    cbn [finally]; eauto.
Qed.

(** C5 (as the program has it).  In [configure_machine] and in
    [read_configuration], an exception that derives from [Exception] and is
    raised inside the [try] block (by connecting, authenticating, reading or
    writing) is caught by the command and printed as "Error: ...";
    [configure_machine] then returns [False] and [read_configuration] returns
    [None], unless the closing [disconnect()] raises.  [configure_machine]
    returns [True] only on the path of the run on which its own calls of
    [authenticate] and of [write_machine_number] returned [True] (and the
    reads and [disconnect] completed): when the [authenticate] of the run
    returns [False], or its [write_machine_number] returns [False], the
    command returns [False], unless the closing [disconnect()] raises.  An
    exception leaves either command only when it does not derive from
    [Exception] or when the closing [disconnect()] raised it. *)
Theorem commands_catch_exceptions (addr : str) (n : pyval) (pw : str) :
  let cfg := new_config addr pw in
  let rc := run (configure_machine T str_lower addr n pw) in
  let rr := run (read_configuration T addr pw) in
  (forall e sb hb,
     configure_machine_body T str_lower n cfg [] = (Exc e, sb, hb) ->
     is_Exception e = true ->
     In (PrintError e) (snd rc) /\
     (fst rc = Ret false \/
      exists x h, fst rc = Exc x /\
                  snd rc = after h [IsConnected true; Disconnect (Some x)]))
  /\ (forall e sb hb,
     read_configuration_body T cfg [] = (Exc e, sb, hb) ->
     is_Exception e = true ->
     In (PrintError e) (snd rr) /\
     (fst rr = Ret tt \/
      exists x h, fst rr = Exc x /\
                  snd rr = after h [IsConnected true; Disconnect (Some x)]))
  /\ (fst rc = Ret true ->
      exists s1 h1 h2 cur h3 h4 new h5,
        connect T cfg [] = (Ret tt, s1, h1)
        /\ authenticate T s1 h1 = (Ret true, s1, h2)
        /\ read_machine_number T s1 h2 = (Ret cur, s1, h3)
        /\ write_machine_number T str_lower n s1
             (after h3 [Print (lit "Current machine number: " ++ cur)])
           = (Ret true, s1, h4)
        /\ read_machine_number T s1 h4 = (Ret new, s1, h5)
        /\ disconnect T s1
             (after h5 [Print (lit "Verified new machine number: " ++ new)])
           = (Ret tt, s1, snd rc))
  /\ (forall s1 h1 s2 h2,
        connect T cfg [] = (Ret tt, s1, h1) ->
        authenticate T s1 h1 = (Ret false, s2, h2) ->
        fst rc = Ret false \/
        exists x h, fst rc = Exc x /\
                    snd rc = after h [IsConnected true; Disconnect (Some x)])
  /\ (forall s1 h1 s2 h2 cur s3 h3 s4 h4,
        connect T cfg [] = (Ret tt, s1, h1) ->
        authenticate T s1 h1 = (Ret true, s2, h2) ->
        read_machine_number T s2 h2 = (Ret cur, s3, h3) ->
        write_machine_number T str_lower n s3
          (after h3 [Print (lit "Current machine number: " ++ cur)])
        = (Ret false, s4, h4) ->
        fst rc = Ret false \/
        exists x h, fst rc = Exc x /\
                    snd rc = after h [IsConnected true; Disconnect (Some x)])
  /\ (forall x, fst rc = Exc x ->
      is_Exception x = false \/
      exists h, snd rc = after h [IsConnected true; Disconnect (Some x)])
  /\ (forall x, fst rr = Exc x ->
      is_Exception x = false \/
      exists h, snd rr = after h [IsConnected true; Disconnect (Some x)]).
Proof.
  intros cfg rc rr. subst rc rr.
  split; [| split; [| split; [| split; [| split; [| split]]]]].
  - intros e sb hb Eb He.
    destruct (disconnect T sb (snd (handled false (Exc e) hb)))
      as [[od sd] hd] eqn:Ed.
    rewrite (configure_machine_run _ _ _ _ _ _ _ _ _ Eb Ed).
    unfold handled in *. rewrite He in *. cbn [fst snd] in *.
    apply disconnect_cases in Ed.
    destruct Ed as [_ [[_ [-> ->]] | [[-> ->] | [[-> ->] | [x [-> ->]]]]]];
      cbn [finally]; (split; [try apply in_after; cbn; auto |]); eauto.
  - intros e sb hb Eb He.
    destruct (disconnect T sb (snd (handled tt (Exc e) hb)))
      as [[od sd] hd] eqn:Ed.
    rewrite (read_configuration_run _ _ _ _ _ _ _ _ Eb Ed).
    unfold handled in *. rewrite He in *. cbn [fst snd] in *.
    apply disconnect_cases in Ed.
    destruct Ed as [_ [[_ [-> ->]] | [[-> ->] | [[-> ->] | [x [-> ->]]]]]];
      cbn [finally]; (split; [try apply in_after; cbn; auto |]); eauto.
  - apply configure_machine_true_path.
  - intros s1 h1 s2 h2 Ec Ea.
    apply (configure_machine_after_false addr n pw s2
             (after h2 [Print (lit "Authentication failed. Cannot configure machine.")])).
    unfold configure_machine_body. run_monad. fold cfg.
    rewrite Ec, Ea. reflexivity.
  - intros s1 h1 s2 h2 cur s3 h3 s4 h4 Ec Ea Er Ew.
    apply (configure_machine_after_false addr n pw s4 h4).
    unfold after in Ew. cbn [rev app] in Ew.
    unfold configure_machine_body. run_monad. fold cfg.
    rewrite Ec, Ea. cbn [negb]. rewrite Er, Ew. reflexivity.
  - intros x. apply configure_machine_escape.
  - intros x. apply read_configuration_escape.
Qed.

(** [main] hands the run over to the command it selects. *)
Lemma main_scan args :
  args_scan args = true ->
  run (main T str_lower args)
  = (discard (fst (run (scan_devices T))), snd (run (scan_devices T))).
Proof.
  intros Hs. unfold main, run. rewrite Hs. run_monad.
  destruct (scan_devices T tt []) as [[[l|x] []] h]; reflexivity.
Qed.

Lemma main_read args :
  args_scan args = false -> args_read args = true ->
  truthy (args_address args) = true ->
  run (main T str_lower args)
  = run (read_configuration T (the_str (args_address args))
                            (args_password args)).
Proof.
  intros Hs Hr Ha. unfold main, run. rewrite Hs, Hr, Ha. cbn [negb].
  run_monad.
  destruct (read_configuration T _ _ tt []) as [[[[]|x] []] h]; reflexivity.
Qed.

Lemma main_configure args :
  args_scan args = false -> args_read args = false ->
  truthy (args_configure args) = true ->
  truthy (args_address args) = true ->
  let command :=
    configure_machine T str_lower (the_str (args_address args))
      (PyStr (the_str (args_configure args))) (args_password args) in
  run (main T str_lower args) = (discard (fst (run command)), snd (run command)).
Proof.
  intros Hs Hr Hc Ha. unfold main, run. rewrite Hs, Hr, Hc, Ha. cbn [negb].
  run_monad.
  destruct (configure_machine T _ _ _ _ tt []) as [[[b|x] []] h]; reflexivity.
Qed.

(** Without an address, the read and configure commands stop at once. *)
Lemma missing_address_run args :
  args_scan args = false ->
  args_read args = true \/ truthy (args_configure args) = true ->
  truthy (args_address args) = false ->
  exists msg,
    run (main T str_lower args)
    = (Exc (SystemExit 1), [PrintHelp; Print msg]).
Proof.
  intros Hs Hc Ha. unfold main, run. rewrite Hs, Ha. cbn [negb].
  destruct (args_read args).
  - run_monad. eauto.
  - destruct Hc as [Hc | Hc]; [discriminate |]. rewrite Hc.
    run_monad. eauto.
Qed.

(** C4.  When [main] selects the read or the configure command ([--scan] is
    not given, and [--read] or a non-empty [--configure] is) and the address
    is missing, it prints an error line and the help text and exits with
    status 1, before any call into the transport. *)
Theorem missing_address_exits (args : Namespace) :
  args_scan args = false ->
  args_read args = true \/ truthy (args_configure args) = true ->
  truthy (args_address args) = false ->
  let r := run (main T str_lower args) in
  fst r = Exc (SystemExit 1)
  /\ exit_status (fst r) <> 0
  /\ exists msg, trace (snd r) = [Print msg; PrintHelp].
Proof.
  intros Hs Hc Ha r. subst r.
  destruct (missing_address_run args Hs Hc Ha) as [msg ->]. cbn.
  split; [reflexivity | split; [discriminate | eauto]].
Qed.

(** Whatever [configure_machine] writes to the machine-number attribute
    is the encoded text of its argument. *)
Lemma configure_machine_writes addr n pw d a :
  In (WriteGattChar MACHINE_NUM_CHAR_UUID d a)
     (snd (run (configure_machine T str_lower addr n pw))) ->
  encode (py_str n) = Some d.
Proof.
  destruct (configure_machine_body T str_lower n (new_config addr pw) [])
    as [[ob sb] hb] eqn:Eb.
  destruct (disconnect T sb (snd (handled false ob hb))) as [[od sd] hd] eqn:Ed.
  rewrite (configure_machine_run _ _ _ _ _ _ _ _ _ Eb Ed). cbn [fst snd].
  set (P := fun e => no_write_to MACHINE_NUM_CHAR_UUID e
                     \/ writes_only MACHINE_NUM_CHAR_UUID (encode (py_str n)) e).
  assert (G : grows P [] hd).
  { eapply grows_trans; [| eapply grows_trans].
    - destruct (configure_body_gate _ _ _ _ _ _ Eb)
        as [G | [s1 [h1 [h2 [_ [_ [G2 G]]]]]]].
      + eapply grows_weaken; [| exact G]. now left.
      + eapply grows_trans;
          [ eapply grows_weaken; [| exact G2]; now left
          | eapply grows_weaken; [| exact G]; now right ].
    - eapply grows_weaken; [| apply (handled_grows false ob)].
      intros e He. left. now apply no_write_weaken.
    - eapply grows_weaken; [| eapply disconnect_grows; exact Ed].
      intros e He. left. now apply no_write_weaken. }
  intros Hin. destruct (grows_from_nil _ _ _ G Hin) as [H | [_ H]].
  - now elim H.
  - exact H.
Qed.

(** C8 (as the program has it).  When [main] selects the configure command,
    whatever is written to the machine-number attribute is the UTF-8
    encoding of the text given to [--configure], as typed; in particular
    the text of an integer is written as that text. *)
Theorem machine_number_written_verbatim (args : Namespace) (d : bytes)
    (a : option exn) :
  args_scan args = false ->
  args_read args = false ->
  In (WriteGattChar MACHINE_NUM_CHAR_UUID d a)
     (snd (run (main T str_lower args))) ->
  exists text,
    args_configure args = Some text
    /\ encode text = Some d
    /\ forall z, text = str_of_Z z -> encode (str_of_Z z) = Some d.
Proof.
  intros Hs Hr.
  destruct (truthy (args_configure args)) eqn:Hc.
  - destruct (truthy (args_address args)) eqn:Ha.
    + rewrite (main_configure args Hs Hr Hc Ha). cbn [snd]. intros Hin.
      apply configure_machine_writes in Hin. cbn [py_str] in Hin.
      destruct (args_configure args) as [text|]; [| discriminate].
      exists text. cbn [the_str] in Hin.
      split; [reflexivity | split; [exact Hin | now intros z <-]].
    + destruct (missing_address_run args Hs (or_intror Hc) Ha) as [msg ->].
      cbn. intros [H | [H | []]]; discriminate H.
  - unfold main, run. rewrite Hs, Hr, Hc. run_monad.
    cbn. intros [H | []]; discriminate H.
Qed.

(** The run of [scan_devices]: it returns, or discovery raised. *)
Lemma scan_devices_outcome :
  (exists found, fst (run (scan_devices T)) = Ret found)
  \/ exists x,
       run (scan_devices T)
       = (Exc x, after [] [Print (lit "Scanning for BLE devices...");
                           Discover 5 (inl x)]).
Proof.
  destruct (scanner_discover T [Print (lit "Scanning for BLE devices...")] 5)
    as [x|devices] eqn:Hd.
  - right. exists x. unfold run, scan_devices. run_monad. rewrite Hd.
    reflexivity.
  - left. destruct (scan_devices_run T devices Hd) as [summary ->].
    now exists (filter is_fullwash devices).
Qed.

(** C9 (as the program has it).  When [--scan] is given or the address is
    present, [main] adds nothing to the command it selects: the run of
    [main] is the run of that command, with the value it returns dropped.
    So the exit status is 0 whenever the command returns, whatever it
    returned (the boolean of [configure_machine] is not used), and it is not
    0 only when an exception leaves the command; an exception leaves the
    read or the configure command only when it does not derive from
    [Exception] or when the closing [disconnect()] raised it. *)
Theorem exit_status_zero (args : Namespace) :
  args_scan args = true \/ truthy (args_address args) = true ->
  let r := run (main T str_lower args) in
  let scan := run (scan_devices T) in
  let read :=
    run (read_configuration T (the_str (args_address args))
           (args_password args)) in
  let conf :=
    run (configure_machine T str_lower (the_str (args_address args))
           (PyStr (the_str (args_configure args))) (args_password args)) in
  (args_scan args = true ->
     r = (discard (fst scan), snd scan)
     /\ (forall found, fst scan = Ret found -> exit_status (fst r) = 0))
  /\ (args_scan args = false -> args_read args = true ->
     r = read
     /\ (fst read = Ret tt -> exit_status (fst r) = 0)
     /\ (forall x, fst read = Exc x ->
           fst r = Exc x /\
           (is_Exception x = false \/
            exists h, snd r = after h [IsConnected true; Disconnect (Some x)])))
  /\ (args_scan args = false -> args_read args = false ->
      truthy (args_configure args) = true ->
     r = (discard (fst conf), snd conf)
     /\ (forall b, fst conf = Ret b -> exit_status (fst r) = 0)
     /\ (forall x, fst conf = Exc x ->
           fst r = Exc x /\
           (is_Exception x = false \/
            exists h, snd r = after h [IsConnected true; Disconnect (Some x)])))
  /\ (args_scan args = false -> args_read args = false ->
      truthy (args_configure args) = false ->
     r = (Ret tt, [PrintHelp]) /\ exit_status (fst r) = 0).
Proof.
  intros Hl r scan read conf. subst r scan read conf.
  split; [| split; [| split]].
  - intros Hs. rewrite (main_scan args Hs). cbn [fst snd].
    split; [reflexivity |].
    intros found ->. reflexivity.
  - intros Hs Hr. destruct Hl as [Hl | Ha]; [congruence |].
    rewrite (main_read args Hs Hr Ha).
    split; [reflexivity | split].
    + intros ->. reflexivity.
    + intros x E. split; [exact E |].
      exact (read_configuration_escape _ _ _ E).
  - intros Hs Hr Hc. destruct Hl as [Hl | Ha]; [congruence |].
    rewrite (main_configure args Hs Hr Hc Ha). cbn [fst snd].
    split; [reflexivity | split].
    + intros b ->. reflexivity.
    + intros x E. split; [rewrite E; reflexivity |].
      exact (configure_machine_escape _ _ _ _ E).
  - intros Hs Hr Hc. unfold main, run. rewrite Hs, Hr, Hc. run_monad.
    split; reflexivity.
Qed.

End Commands.

(** ** The text of an integer *)

Lemma str_of_uint_chars d : forallb int_char (str_of_uint d) = true.
Proof. induction d; cbn [str_of_uint forallb]; auto. Qed.

Lemma str_of_Z_chars z : forallb int_char (str_of_Z z) = true.
Proof.
  unfold str_of_Z. destruct (Z.to_int z);
    cbn [forallb]; rewrite ?str_of_uint_chars; reflexivity.
Qed.

Lemma int_char_cases c :
  int_char c = true ->
  In c [45; 48; 49; 50; 51; 52; 53; 54; 55; 56; 57].
Proof.
  unfold int_char. rewrite orb_true_iff, andb_true_iff, Z.eqb_eq, !Z.leb_le.
  intros H. cbn [In].
  assert (c = 45 \/ c = 48 \/ c = 49 \/ c = 50 \/ c = 51 \/ c = 52 \/ c = 53
          \/ c = 54 \/ c = 55 \/ c = 56 \/ c = 57) by lia.
  intuition auto.
Qed.

Lemma utf8_encode_int_text s :
  forallb int_char s = true -> utf8_encode_Z s = Some s.
Proof.
  induction s as [|c s IH]; [reflexivity |].
  cbn [forallb utf8_encode_Z]. rewrite andb_true_iff. intros [Hc Hs].
  rewrite (IH Hs). apply int_char_cases in Hc. cbn [In] in Hc.
  repeat (destruct Hc as [<- | Hc]; [reflexivity |]). contradiction.
Qed.

(** The encoded text of an integer holds digits and minus signs only. *)
Lemma encode_str_of_Z z :
  exists b, encode (str_of_Z z) = Some b
            /\ forallb int_char (map byte_val b) = true.
Proof.
  pose proof (str_of_Z_chars z) as H. unfold encode.
  rewrite (utf8_encode_int_text _ H). cbn [option_map].
  eexists. split; [reflexivity |].
  induction (str_of_Z z) as [|c s IH]; [reflexivity |].
  cbn [forallb map] in *. apply andb_true_iff in H. destruct H as [Hc Hs].
  rewrite (IH Hs), andb_true_r. apply int_char_cases in Hc. cbn [In] in Hc.
  repeat (destruct Hc as [<- | Hc]; [reflexivity |]). contradiction.
Qed.

(** ** What each operation can add to the history *)

Section Alphabets.

Variable T : Bleak.
Variable str_lower : str -> str.

Lemma connect_alphabet s h o s' h' :
  connect T s h = (o, s', h') ->
  grows (connect_event (device_address s)) h h'.
Proof.
  unfold connect. exec; frame_done.
Qed.

Lemma authenticate_alphabet s h o s' h' :
  authenticate T s h = (o, s', h') ->
  grows (authenticate_event (password s)) h h'.
Proof.
  unfold authenticate. exec; frame_done.
Qed.

Lemma read_machine_number_alphabet s h o s' h' :
  read_machine_number T s h = (o, s', h') ->
  grows read_number_event h h'.
Proof.
  unfold read_machine_number. exec; frame_done.
Qed.

Lemma write_machine_number_alphabet n s h o s' h' :
  write_machine_number T str_lower n s h = (o, s', h') ->
  grows (write_number_event n) h h'.
Proof.
  unfold write_machine_number. exec; frame_done.
Qed.

Lemma disconnect_alphabet s h o s' h' :
  disconnect T s h = (o, s', h') ->
  grows disconnect_event h h'.
Proof.
  unfold disconnect. exec; frame_done.
Qed.

(** [connect] keeps the address and the password of the object. *)
Lemma connect_keeps s h o s' h' :
  connect T s h = (o, s', h') ->
  device_address s' = device_address s /\ password s' = password s.
Proof.
  unfold connect. exec; frame_done.
Qed.

End Alphabets.

(** ** Further properties of the operations and commands *)

Lemma uuid_status_not_machine_num : STATUS_CHAR_UUID <> MACHINE_NUM_CHAR_UUID.
Proof. intros H. vm_compute in H. discriminate H. Qed.

Ltac event_cases :=
  let H := fresh "H" in
  intros [] H; cbn in H |- *; try exact I; try contradiction.

Ltac weaken_with G :=
  eapply grows_weaken; [| exact G]; event_cases.

Section Further.

Variable T : Bleak.
Variable str_lower : str -> str.

(** X2.  [disconnect] leaves the object as it is.  Without a handle it does
    nothing.  With one it asks the handle once whether the link is up, and
    calls the handle's [disconnect()] only after the answer [True], and only
    once; it raises exactly when that call raises, and prints
    "Disconnected." exactly when that call completes. *)
Theorem disconnect_discipline (s : FullWashBLEConfig) (h : history) :
  exists o evs,
    disconnect T s h = (o, s, after h evs)
    /\ (client s = None -> evs = [] /\ o = Ret tt)
    /\ (forall r, In (Disconnect r) evs ->
          exists tail, evs = IsConnected true :: Disconnect r :: tail)
    /\ (forall x, o = Exc x <-> In (Disconnect (Some x)) evs)
    /\ (In (Print (lit "Disconnected.")) evs <-> In (Disconnect None) evs)
    /\ (count is_disconnect evs <= 1)%nat.
Proof.
  unfold disconnect. exec.
  - exists (Exc e), [IsConnected true; Disconnect (Some e)].
    split; [reflexivity |]. unfold count. cbn.
    repeat split; try congruence; try lia; intros;
      repeat match goal with
             | H : _ \/ _ |- _ => destruct H
             | H : False |- _ => destruct H
             | H : Exc _ = Exc _ |- _ => injection H as <-
             | H : _ = _ |- _ => first [discriminate H | injection H as <-]
             end; eauto.
  - exists (Ret tt),
      [IsConnected true; Disconnect None; Print (lit "Disconnected.")].
    split; [reflexivity |]. unfold count. cbn.
    repeat split; try congruence; try lia; intros;
      repeat match goal with
             | H : _ \/ _ |- _ => destruct H
             | H : False |- _ => destruct H
             | H : _ = _ |- _ => first [discriminate H | injection H as <-]
             end; eauto.
  - exists (Ret tt), [IsConnected false].
    split; [reflexivity |]. unfold count. cbn.
    repeat split; try congruence; try lia; intros;
      repeat match goal with
             | H : _ \/ _ |- _ => destruct H
             | H : False |- _ => destruct H
             | H : _ = _ |- _ => discriminate H
             end.
  - exists (Ret tt), [].
    split; [reflexivity |]. unfold count. cbn.
    repeat split; try congruence; try lia; intros;
      repeat match goal with
             | H : _ \/ _ |- _ => destruct H
             | H : False |- _ => destruct H
             | H : _ = _ |- _ => discriminate H
             end.
Qed.

(** The handler and [disconnect] touch no attribute. *)
Lemma handled_quiet {A} (dflt : A) ob hb :
  grows no_gatt hb (snd (handled dflt ob hb)).
Proof.
  unfold handled. destruct ob as [a|e]; [| destruct (is_Exception e)];
    cbn [snd]; repeat constructor.
Qed.

Lemma disconnect_quiet s h o s' h' :
  disconnect T s h = (o, s', h') -> grows no_gatt h h'.
Proof.
  intros E. apply disconnect_alphabet in E. weaken_with E.
Qed.

Lemma connect_quiet s h o s' h' :
  connect T s h = (o, s', h') -> grows no_gatt h h'.
Proof.
  intros E. apply connect_alphabet in E. weaken_with E.
Qed.

(** When [connect] raises, so does the [try] block, at once. *)
Lemma configure_body_connect_raises n s h x s1 h1 :
  connect T s h = (Exc x, s1, h1) ->
  configure_machine_body T str_lower n s h = (Exc x, s1, h1).
Proof.
  intros E. unfold configure_machine_body. run_monad. now rewrite E.
Qed.

Lemma read_body_connect_raises s h x s1 h1 :
  connect T s h = (Exc x, s1, h1) ->
  read_configuration_body T s h = (Exc x, s1, h1).
Proof.
  intros E. unfold read_configuration_body. run_monad. now rewrite E.
Qed.

(** X1.  When the connection cannot be made (building the handle or its
    [connect()] raises), neither command reads or writes any attribute: the
    password is not sent.  [configure_machine] does not return [True], and an
    exception that derives from [Exception] is printed by both commands. *)
Theorem connect_failure_sends_nothing (addr : str) (n : pyval) (pw : str)
    (x : exn) (s1 : FullWashBLEConfig) (h1 : history) :
  connect T (new_config addr pw) [] = (Exc x, s1, h1) ->
  let rc := run (configure_machine T str_lower addr n pw) in
  let rr := run (read_configuration T addr pw) in
  Forall no_gatt (snd rc)
  /\ Forall no_gatt (snd rr)
  /\ fst rc <> Ret true
  /\ (is_Exception x = true ->
      In (PrintError x) (snd rc) /\ In (PrintError x) (snd rr)).
Proof.
  intros Ec rc rr. subst rc rr.
  pose proof (connect_quiet _ _ _ _ _ Ec) as G1.
  pose proof (configure_body_connect_raises n _ _ _ _ _ Ec) as Eb.
  pose proof (read_body_connect_raises _ _ _ _ _ Ec) as Eb'.
  destruct (disconnect T s1 (snd (handled false (Exc x) h1)))
    as [[od sd] hd] eqn:Ed.
  destruct (disconnect T s1 (snd (handled tt (Exc x) h1)))
    as [[od' sd'] hd'] eqn:Ed'.
  rewrite (configure_machine_run _ _ _ _ _ _ _ _ _ _ _ Eb Ed).
  rewrite (read_configuration_run _ _ _ _ _ _ _ _ _ Eb' Ed').
  cbn [fst snd].
  pose proof (disconnect_quiet _ _ _ _ _ Ed) as G3.
  pose proof (disconnect_quiet _ _ _ _ _ Ed') as G3'.
  pose proof (disconnect_grows _ _ _ _ _ _ Ed) as G4.
  pose proof (disconnect_grows _ _ _ _ _ _ Ed') as G4'.
  repeat split.
  - eapply grows_Forall; [constructor |].
    eapply grows_trans; [exact G1 |].
    eapply grows_trans; [apply (handled_quiet false (Exc x)) | exact G3].
  - eapply grows_Forall; [constructor |].
    eapply grows_trans; [exact G1 |].
    eapply grows_trans; [apply (handled_quiet tt (Exc x)) | exact G3'].
  - unfold handled. destruct od; cbn [finally]; [| discriminate].
    destruct (is_Exception x); cbn [fst]; discriminate.
  - unfold handled in G4. rewrite H in G4. cbn [snd] in G4.
    apply grows_app in G4. destruct G4 as [evs [-> _]].
    apply in_or_app. right. now left.
  - unfold handled in G4'. rewrite H in G4'. cbn [snd] in G4'.
    apply grows_app in G4'. destruct G4' as [evs [-> _]].
    apply in_or_app. right. now left.
Qed.

(** The [try] block of [read_configuration] writes nothing but the encoded
    password, to the authentication attribute. *)
Lemma read_body_writes s h o s' h' :
  read_configuration_body T s h = (o, s', h') ->
  grows (writes_only AUTH_CHAR_UUID (encode (password s))) h h'.
Proof.
  assert (W : forall p e, no_write e -> writes_only AUTH_CHAR_UUID p e)
    by (intros p; event_cases).
  unfold read_configuration_body. run_monad.
  destruct (connect T s h) as [[[[]|x] s1] h1] eqn:Ec;
    destruct (connect_frame _ _ _ _ _ _ Ec) as [G1 _];
    destruct (connect_keeps _ _ _ _ _ _ Ec) as [_ Hpw];
    [| intros E; inversion E; subst;
       eapply grows_weaken; [apply W | eassumption]].
  destruct (authenticate T s1 h1) as [[[b|x] s2] h2] eqn:Ea;
    destruct (authenticate_frame _ _ _ _ _ _ Ea) as [-> G2];
    rewrite Hpw in G2;
    assert (G : grows (writes_only AUTH_CHAR_UUID (encode (password s))) h h2)
      by (eapply grows_trans;
          [eapply grows_weaken; [apply W | exact G1] | exact G2]);
    [| intros E; inversion E; subst; exact G].
  destruct b; [| intros E; inversion E; subst; exact G].
  destruct (read_machine_number T s1 h2) as [[[cur|x] s3] h3] eqn:Er;
    destruct (read_machine_number_frame _ _ _ _ _ _ Er) as [-> G3];
    intros E; inversion E; subst;
    repeat (constructor; [exact I |]);
    (eapply grows_trans; [exact G |]);
    (eapply grows_weaken; [apply W | eassumption]).
Qed.

(** Whatever [read_configuration] writes is the encoded password, written
    to the authentication attribute. *)
Lemma read_configuration_writes addr pw u d a :
  In (WriteGattChar u d a) (snd (run (read_configuration T addr pw))) ->
  u = AUTH_CHAR_UUID /\ encode pw = Some d.
Proof.
  destruct (read_configuration_body T (new_config addr pw) [])
    as [[ob sb] hb] eqn:Eb.
  destruct (disconnect T sb (snd (handled tt ob hb))) as [[od sd] hd] eqn:Ed.
  rewrite (read_configuration_run _ _ _ _ _ _ _ _ _ Eb Ed). cbn [fst snd].
  intros Hin.
  assert (G : grows (writes_only AUTH_CHAR_UUID (encode pw)) [] hd).
  { eapply grows_trans; [exact (read_body_writes _ _ _ _ _ Eb) |].
    eapply grows_weaken;
      [| eapply grows_trans;
         [apply (handled_grows tt ob) | exact (disconnect_grows _ _ _ _ _ _ Ed)]].
    event_cases. }
  exact (grows_from_nil _ _ _ G Hin).
Qed.

(** X3.  [read_configuration] is read-only for the controller's settings:
    whatever it writes, in any run, is the encoded password, written to the
    authentication attribute; the machine-number attribute is never
    written. *)
Theorem read_configuration_read_only (addr pw : str) (u : str) (d : bytes)
    (a : option exn) :
  In (WriteGattChar u d a) (snd (run (read_configuration T addr pw))) ->
  u = AUTH_CHAR_UUID /\ u <> MACHINE_NUM_CHAR_UUID /\ encode pw = Some d.
Proof.
  intros Hin. destruct (read_configuration_writes _ _ _ _ _ Hin) as [-> H].
  repeat split; [exact uuid_auth_not_machine_num | exact H].
Qed.

(** X4.  [read_configuration] reads the machine-number attribute only
    after [authenticate] has returned [True]: the read lies in the part of
    the history that follows that return, and nothing before it reads the
    attribute. *)
Theorem read_configuration_gated (addr pw : str) (r0 : exn + bytes) :
  let cfg := new_config addr pw in
  let r := run (read_configuration T addr pw) in
  In (ReadGattChar MACHINE_NUM_CHAR_UUID r0) (snd r) ->
  exists s1 h1 h2 rest,
    connect T cfg [] = (Ret tt, s1, h1)
    /\ authenticate T s1 h1 = (Ret true, s1, h2)
    /\ Forall (no_read_of MACHINE_NUM_CHAR_UUID) h2
    /\ snd r = after h2 rest
    /\ In (ReadGattChar MACHINE_NUM_CHAR_UUID r0) rest.
Proof.
  intros cfg r. subst r.
  destruct (read_configuration_body T cfg []) as [[ob sb] hb] eqn:Eb.
  destruct (disconnect T sb (snd (handled tt ob hb))) as [[od sd] hd] eqn:Ed.
  rewrite (read_configuration_run _ _ _ _ _ _ _ _ _ Eb Ed). cbn [fst snd].
  assert (Gt : grows (no_read_of MACHINE_NUM_CHAR_UUID) hb hd).
  { eapply grows_weaken;
      [| eapply grows_trans;
         [apply (handled_quiet tt ob) | exact (disconnect_quiet _ _ _ _ _ Ed)]].
    event_cases. }
  intros Hin. revert Eb. unfold read_configuration_body. run_monad.
  destruct (connect T cfg []) as [[[[]|x] s1] h1] eqn:Ec;
    pose proof (connect_alphabet _ _ _ _ _ _ Ec) as G1;
    assert (G1' : grows (no_read_of MACHINE_NUM_CHAR_UUID) [] h1)
      by (weaken_with G1).
  2:{ intros E; inversion E; subst. exfalso.
      exact (grows_from_nil _ _ _ (grows_trans _ _ _ _ G1' Gt) Hin eq_refl). }
  destruct (authenticate T s1 h1) as [[[b|x] s2] h2] eqn:Ea;
    destruct (authenticate_frame _ _ _ _ _ _ Ea) as [-> _];
    pose proof (authenticate_alphabet _ _ _ _ _ _ Ea) as G2;
    assert (G2' : grows (no_read_of MACHINE_NUM_CHAR_UUID) [] h2).
  1,3: eapply grows_trans; [exact G1' |];
       eapply grows_weaken; [| exact G2]; event_cases;
       subst; exact uuid_status_not_machine_num.
  2:{ intros E; inversion E; subst. exfalso.
      exact (grows_from_nil _ _ _ (grows_trans _ _ _ _ G2' Gt) Hin eq_refl). }
  destruct b.
  2:{ intros E; inversion E; subst. exfalso.
      exact (grows_from_nil _ _ _ (grows_trans _ _ _ _ G2' Gt) Hin eq_refl). }
  intros Eb.
  assert (G : grows (fun _ => True) h2 hd).
  { eapply grows_trans; [| eapply grows_weaken; [| exact Gt]; now intros].
    revert Eb.
    destruct (read_machine_number T s1 h2) as [[[cur|x] s3] h3] eqn:Er;
      destruct (read_machine_number_frame _ _ _ _ _ _ Er) as [-> G3];
      intros E; inversion E; subst;
      repeat (constructor; [exact I |]);
      (eapply grows_weaken; [| exact G3]; now intros). }
  apply grows_after in G. destruct G as [rest [-> _]].
  exists s1, h1, h2, rest.
  split; [ok | split; [ok | split; [| split; [reflexivity |]]]].
  - eapply grows_Forall; [constructor | exact G2'].
  - apply in_after in Hin. destruct Hin as [Hin | Hin]; [| exact Hin].
    exfalso. exact (grows_from_nil _ _ _ G2' Hin eq_refl).
Qed.

(** X5.  [configure_machine] returns [True] exactly on one path: the
    connection is made, [authenticate] returns [True], the current number is
    read, [write_machine_number] returns [True], the number is read back,
    and [disconnect] completes.  The value read back is printed but not
    compared with the number that was written. *)
Theorem configure_machine_true_iff (addr : str) (n : pyval) (pw : str) :
  fst (run (configure_machine T str_lower addr n pw)) = Ret true
  <->
  exists s1 h1 h2 cur h3 h4 new h5 hd,
    connect T (new_config addr pw) [] = (Ret tt, s1, h1)
    /\ authenticate T s1 h1 = (Ret true, s1, h2)
    /\ read_machine_number T s1 h2 = (Ret cur, s1, h3)
    /\ write_machine_number T str_lower n s1
         (after h3 [Print (lit "Current machine number: " ++ cur)])
       = (Ret true, s1, h4)
    /\ read_machine_number T s1 h4 = (Ret new, s1, h5)
    /\ disconnect T s1
         (after h5 [Print (lit "Verified new machine number: " ++ new)])
       = (Ret tt, s1, hd).
Proof.
  unfold after. cbn [rev app]. split.
  - destruct (configure_machine_body T str_lower n (new_config addr pw) [])
      as [[ob sb] hb] eqn:Eb.
    destruct (disconnect T sb (snd (handled false ob hb)))
      as [[od sd] hd] eqn:Ed.
    rewrite (configure_machine_run _ _ _ _ _ _ _ _ _ _ _ Eb Ed). cbn [fst].
    intros Hr.
    assert (Hob : ob = Ret true /\ od = Ret tt).
    { destruct od as [[]|]; [| discriminate]. cbn [finally] in Hr.
      unfold handled in Hr.
      destruct ob as [b|e]; [cbn [fst] in Hr; rewrite Hr; auto |].
      destruct (is_Exception e); discriminate. }
    destruct Hob as [-> ->]. cbn [handled snd] in Ed.
    destruct (disconnect_cases _ _ _ _ _ _ Ed) as [-> _].
    revert Eb. unfold configure_machine_body. run_monad.
    destruct (connect T (new_config addr pw) []) as [[[[]|x] s1] h1] eqn:Ec;
      [| discriminate].
    destruct (authenticate T s1 h1) as [[[b|x] s2] h2] eqn:Ea;
      [| discriminate].
    destruct (authenticate_frame _ _ _ _ _ _ Ea) as [-> _].
    destruct b; cbn [negb]; [| discriminate].
    destruct (read_machine_number T s1 h2) as [[[cur|x] s3] h3] eqn:Er;
      [| discriminate].
    destruct (read_machine_number_frame _ _ _ _ _ _ Er) as [-> _].
    destruct (write_machine_number T str_lower n s1 _)
      as [[[w|x] s4] h4] eqn:Ew; [| discriminate].
    destruct (write_machine_number_frame _ _ _ _ _ _ _ _ Ew) as [-> _].
    destruct w; [| discriminate].
    destruct (read_machine_number T s1 h4) as [[[new|x] s5] h5] eqn:Er2;
      [| discriminate].
    destruct (read_machine_number_frame _ _ _ _ _ _ Er2) as [-> _].
    intros E. inversion E; subst.
    exists sb, h1, h2, cur, h3, h4, new, h5, hd. auto 10.
  - intros [s1 [h1 [h2 [cur [h3 [h4 [new [h5 [hd [Ec [Ea [Er [Ew [Er2 Ed]]]]]]]]]]]]]].
    unfold run, configure_machine, configure_machine_body. run_monad.
    rewrite Ec, Ea. cbn [negb]. rewrite Er, Ew, Er2, Ed. reflexivity.
Qed.

Lemma within_trans a b c m d a' b' c' m' d' h h1 h2 :
  within a b c m d h h1 -> within a' b' c' m' d' h1 h2 ->
  within (a + a') (b + b') (c + c') (m + m') (d + d') h h2.
Proof. unfold within. lia. Qed.

Lemma within_more a b c m d a' b' c' m' d' h h' :
  within a b c m d h h' ->
  (a <= a' /\ b <= b' /\ c <= c' /\ m <= m' /\ d <= d')%nat ->
  within a' b' c' m' d' h h'.
Proof. unfold within. lia. Qed.

Lemma auth_is_not_machine_num :
  str_eqb AUTH_CHAR_UUID MACHINE_NUM_CHAR_UUID = false.
Proof. vm_compute. reflexivity. Qed.

Lemma machine_num_is_machine_num :
  str_eqb MACHINE_NUM_CHAR_UUID MACHINE_NUM_CHAR_UUID = true.
Proof. vm_compute. reflexivity. Qed.

Ltac tally :=
  unfold within, count in *;
  cbn [filter List.length is_new_client is_connect is_write is_write_to
       is_disconnect handled snd fst] in *;
  rewrite ?auth_is_not_machine_num, ?machine_num_is_machine_num in *;
  cbn [filter List.length] in *;
  try lia.

Ltac tally_done :=
  let E := fresh "E" in
  intros E; inversion E; subst; clear E; tally.

Lemma connect_within s h o s' h' :
  connect T s h = (o, s', h') -> within 1 1 0 0 0 h h'.
Proof. unfold connect. exec; tally_done. Qed.

Lemma authenticate_within s h o s' h' :
  authenticate T s h = (o, s', h') -> within 0 0 1 0 0 h h'.
Proof. unfold authenticate. exec; tally_done. Qed.

Lemma read_machine_number_within s h o s' h' :
  read_machine_number T s h = (o, s', h') -> within 0 0 0 0 0 h h'.
Proof. unfold read_machine_number. exec; tally_done. Qed.

Lemma write_machine_number_within n s h o s' h' :
  write_machine_number T str_lower n s h = (o, s', h') ->
  within 0 0 1 1 0 h h'.
Proof. unfold write_machine_number. exec; tally_done. Qed.

Lemma disconnect_within s h o s' h' :
  disconnect T s h = (o, s', h') -> within 0 0 0 0 1 h h'.
Proof. unfold disconnect. exec; tally_done. Qed.

Lemma handled_within {A} (dflt : A) ob hb :
  within 0 0 0 0 0 hb (snd (handled dflt ob hb)).
Proof.
  unfold handled. destruct ob as [a|e]; [| destruct (is_Exception e)]; tally.
Qed.

Lemma configure_body_within n s h o s' h' :
  configure_machine_body T str_lower n s h = (o, s', h') ->
  within 1 1 2 1 0 h h'.
Proof.
  unfold configure_machine_body. run_monad.
  destruct (connect T s h) as [[[[]|x] s1] h1] eqn:Ec;
    pose proof (connect_within _ _ _ _ _ Ec) as W1; [| tally_done].
  destruct (authenticate T s1 h1) as [[[b|x] s2] h2] eqn:Ea;
    pose proof (authenticate_within _ _ _ _ _ Ea) as W2; [| tally_done].
  destruct b; cbn [negb]; [| tally_done].
  destruct (read_machine_number T s2 h2) as [[[cur|x] s3] h3] eqn:Er;
    pose proof (read_machine_number_within _ _ _ _ _ Er) as W3;
    [| tally_done].
  destruct (write_machine_number T str_lower n s3 _)
    as [[[w|x] s4] h4] eqn:Ew;
    pose proof (write_machine_number_within _ _ _ _ _ _ Ew) as W4;
    [| tally_done].
  destruct w; [| tally_done].
  destruct (read_machine_number T s4 h4) as [[[new|x] s5] h5] eqn:Er2;
    pose proof (read_machine_number_within _ _ _ _ _ Er2) as W5;
    tally_done.
Qed.

Lemma read_body_within s h o s' h' :
  read_configuration_body T s h = (o, s', h') ->
  within 1 1 1 0 0 h h'.
Proof.
  unfold read_configuration_body. run_monad.
  destruct (connect T s h) as [[[[]|x] s1] h1] eqn:Ec;
    pose proof (connect_within _ _ _ _ _ Ec) as W1; [| tally_done].
  destruct (authenticate T s1 h1) as [[[b|x] s2] h2] eqn:Ea;
    pose proof (authenticate_within _ _ _ _ _ Ea) as W2; [| tally_done].
  destruct b; [| tally_done].
  destruct (read_machine_number T s2 h2) as [[[cur|x] s3] h3] eqn:Er;
    pose proof (read_machine_number_within _ _ _ _ _ Er) as W3;
    tally_done.
Qed.

(** X6.  Neither command tries anything twice.  A run of
    [configure_machine] builds at most one handle, calls its [connect()] at
    most once, writes at most two attributes (the password, and the machine
    number at most once), and calls [disconnect()] at most once; a run of
    [read_configuration] does the same with at most one write and no write
    of the machine number. *)
Theorem commands_try_once (addr : str) (n : pyval) (pw : str) :
  within 1 1 2 1 1 [] (snd (run (configure_machine T str_lower addr n pw)))
  /\ within 1 1 1 0 1 [] (snd (run (read_configuration T addr pw))).
Proof.
  split.
  - destruct (configure_machine_body T str_lower n (new_config addr pw) [])
      as [[ob sb] hb] eqn:Eb.
    destruct (disconnect T sb (snd (handled false ob hb)))
      as [[od sd] hd] eqn:Ed.
    rewrite (configure_machine_run _ _ _ _ _ _ _ _ _ _ _ Eb Ed). cbn [snd].
    pose proof (configure_body_within _ _ _ _ _ _ Eb) as W1.
    pose proof (handled_within false ob hb) as W2.
    pose proof (disconnect_within _ _ _ _ _ Ed) as W3.
    unfold within in *. lia.
  - destruct (read_configuration_body T (new_config addr pw) [])
      as [[ob sb] hb] eqn:Eb.
    destruct (disconnect T sb (snd (handled tt ob hb)))
      as [[od sd] hd] eqn:Ed.
    rewrite (read_configuration_run _ _ _ _ _ _ _ _ _ Eb Ed). cbn [snd].
    pose proof (read_body_within _ _ _ _ _ Eb) as W1.
    pose proof (handled_within tt ob hb) as W2.
    pose proof (disconnect_within _ _ _ _ _ Ed) as W3.
    unfold within in *. lia.
Qed.

(** A scan talks to the scanner only. *)
Lemma scan_devices_alphabet :
  Forall scan_event (snd (run (scan_devices T))).
Proof.
  unfold run, scan_devices. run_monad.
  destruct (scanner_discover T _ _) as [x|devices]; run_monad;
    [repeat constructor |].
  rewrite scan_loop_run. cbn [app].
  assert (F : Forall scan_event
                (rev (map (fun d => Print (device_line d)) devices)
                 ++ [Print rule; Print (lit "Found Devices:");
                     Print (10 :: rule); Discover 5 (inr devices);
                     Print (lit "Scanning for BLE devices...")])).
  { apply Forall_app. split; [| repeat constructor].
    apply Forall_rev, Forall_map, Forall_forall. intros; exact I. }
  destruct (filter is_fullwash devices); run_monad;
    repeat (constructor; [exact I |]); exact F.
Qed.

(** X7.  [--scan] takes precedence: whatever else is on the command line,
    the run then only prints and calls the scanner; no handle is built, no
    connection is made, and no attribute is read or written. *)
Theorem scan_takes_precedence (args : Namespace) :
  args_scan args = true ->
  Forall scan_event (snd (run (main T str_lower args))).
Proof.
  intros Hs. rewrite (main_scan T str_lower args Hs). cbn [snd].
  exact scan_devices_alphabet.
Qed.

(** X8.  The machine number is written only by the configure command: a run
    of [main] that writes the machine-number attribute was started without
    [--scan] and without [--read], with a non-empty [--configure] and a
    non-empty [--address]. *)
Theorem only_configure_writes_the_number (args : Namespace) (d : bytes)
    (a : option exn) :
  In (WriteGattChar MACHINE_NUM_CHAR_UUID d a)
     (snd (run (main T str_lower args))) ->
  args_scan args = false
  /\ args_read args = false
  /\ truthy (args_configure args) = true
  /\ truthy (args_address args) = true.
Proof.
  intros Hin.
  destruct (args_scan args) eqn:Hs.
  { exfalso. rewrite (main_scan T str_lower args Hs) in Hin. cbn [snd] in Hin.
    pose proof scan_devices_alphabet as F. rewrite Forall_forall in F.
    exact (F _ Hin). }
  destruct (truthy (args_address args)) eqn:Ha.
  - destruct (args_read args) eqn:Hr.
    + exfalso. rewrite (main_read T str_lower args Hs Hr Ha) in Hin.
      apply read_configuration_writes in Hin. destruct Hin as [Hu _].
      symmetry in Hu. exact (uuid_auth_not_machine_num Hu).
    + destruct (truthy (args_configure args)) eqn:Hc; [auto |].
      exfalso. revert Hin. unfold main, run. rewrite Hs, Hr, Hc. run_monad.
      cbn. intros [H | []]. discriminate H.
  - exfalso.
    destruct (args_read args) eqn:Hr.
    + destruct (missing_address_run T str_lower args Hs (or_introl Hr) Ha)
        as [msg E].
      rewrite E in Hin. cbn in Hin. destruct Hin as [H | [H | []]];
        discriminate H.
    + destruct (truthy (args_configure args)) eqn:Hc.
      * destruct (missing_address_run T str_lower args Hs (or_intror Hc) Ha)
          as [msg E].
        rewrite E in Hin. cbn in Hin. destruct Hin as [H | [H | []]];
          discriminate H.
      * revert Hin. unfold main, run. rewrite Hs, Hr, Hc. run_monad.
        cbn. intros [H | []]. discriminate H.
Qed.

(** X9.  The last line of a scan tells what it returns: when discovery
    returns [devices], the scan prints "Found k FullWash machine(s)" with [k]
    the number of devices it returns when there is one, and "No FullWash
    machines found" with the four troubleshooting hints when it returns the
    empty list. *)
Theorem scan_devices_summary (devices : list BLEDevice) :
  scanner_discover T [Print (lit "Scanning for BLE devices...")] 5
  = inr devices ->
  let found := filter is_fullwash devices in
  let h := snd (run (scan_devices T)) in
  fst (run (scan_devices T)) = Ret found
  /\ (found <> [] ->
      hd_error h
      = Some (Print ([10] ++ lit "✓ Found "
                     ++ str_of_Z (Z.of_nat (List.length found))
                     ++ lit " FullWash machine(s)")))
  /\ (found = [] ->
      firstn 6 h
      = [Print (lit "  4. Check that Bluetooth is enabled");
         Print (lit "  3. Move closer to the device");
         Print (lit "  2. Wait 5-10 seconds after power-on");
         Print (lit "  1. Ensure the machine is powered on");
         Print ([10] ++ lit "Troubleshooting:");
         Print ([10] ++ lit "✗ No FullWash machines found")]).
Proof.
  intros Hd found h. subst found h.
  unfold run, scan_devices. run_monad. rewrite Hd. run_monad.
  rewrite scan_loop_run. cbn [app].
  destruct (filter is_fullwash devices) as [|d l]; run_monad; cbn [fst snd].
  - split; [reflexivity | split; [congruence | reflexivity]].
  - split; [reflexivity | split; [reflexivity | discriminate]].
Qed.

(** X10.  A status that is not UTF-8 makes [authenticate] raise
    [UnicodeDecodeError] after the password has been written and the status
    read: no status line and no verdict are printed, and no boolean is
    returned. *)
Theorem authenticate_garbled_status (self : FullWashBLEConfig)
    (c : BleakClient) (h : history) (data status : bytes) :
  client self = Some c ->
  encode (password self) = Some data ->
  client_write_gatt_char T (after h [Print (lit "Authenticating...")])
    AUTH_CHAR_UUID data = None ->
  client_read_gatt_char T
    (after h [Print (lit "Authenticating...");
              WriteGattChar AUTH_CHAR_UUID data None; Sleep (1 # 2)])
    STATUS_CHAR_UUID = inr status ->
  decode status = None ->
  authenticate T self h =
    (Exc (UnicodeDecodeError status), self,
     after h [Print (lit "Authenticating...");
              WriteGattChar AUTH_CHAR_UUID data None;
              Sleep (1 # 2);
              ReadGattChar STATUS_CHAR_UUID (inr status)]).
Proof using T.
  intros Hc He Hw Hr Hd.
  unfold after in Hw, Hr |- *; cbn [rev app] in Hw, Hr |- *.
  unfold authenticate. run_monad.
  rewrite Hc. run_monad. rewrite He. run_monad. rewrite Hw. run_monad.
  rewrite Hc. run_monad. rewrite Hr. run_monad. rewrite Hd. reflexivity.
Qed.

Lemma grows_keeps P h h' e : grows P h h' -> In e h -> In e h'.
Proof.
  intros G Hin. induction G; [assumption | now right].
Qed.

(** A [write_machine_number] that returns has written the number, and the
    write completed. *)
Lemma write_machine_number_wrote n s h b s' h' :
  write_machine_number T str_lower n s h = (Ret b, s', h') ->
  exists d, encode (py_str n) = Some d
            /\ In (WriteGattChar MACHINE_NUM_CHAR_UUID d None) h'.
Proof.
  unfold write_machine_number. exec; intros E; inversion E; subst;
    eexists; (split; [ok |]); cbn; auto 10.
Qed.

(** When [configure_machine] returns [True], [write_machine_number] has
    returned [True]. *)
Lemma configure_machine_true_wrote addr n pw :
  fst (run (configure_machine T str_lower addr n pw)) = Ret true ->
  exists s h h', write_machine_number T str_lower n s h = (Ret true, s, h').
Proof.
  destruct (configure_machine_body T str_lower n (new_config addr pw) [])
    as [[ob sb] hb] eqn:Eb.
  destruct (disconnect T sb (snd (handled false ob hb)))
    as [[od sd] hd] eqn:Ed.
  rewrite (configure_machine_run _ _ _ _ _ _ _ _ _ _ _ Eb Ed). cbn [fst].
  intros Hr.
  assert (Hob : ob = Ret true).
  { destruct od; [| discriminate]. cbn [finally] in Hr.
    unfold handled in Hr. destruct ob as [b|e]; [exact Hr |].
    destruct (is_Exception e); discriminate. }
  subst ob. apply configure_body_cases in Eb.
  destruct Eb as [[x [Hx _]] | [s1 [h1 [Ec [-> Eb]]]]]; [discriminate |].
  destruct Eb as [[x [Hx _]] | [[h2 [_ [Hx _]]] | [h2 [Ea [_ Hw]]]]];
    try discriminate.
  destruct (Hw eq_refl) as [h3 [h4 [_ [Ew _]]]]. eauto.
Qed.

(** X11.  A [False] from [configure_machine] does not mean that nothing was
    written.  When the number has been written and confirmed by the status
    but the read-back raises, the exception is caught and printed, the
    command does not return [True], and the completed write of the number is
    in the history of the run. *)
Theorem readback_failure_after_write (addr : str) (n : pyval) (pw : str)
    (s1 : FullWashBLEConfig) (h1 h2 : history) (cur : str)
    (h3 h4 h5 : history) (x : exn) :
  connect T (new_config addr pw) [] = (Ret tt, s1, h1) ->
  authenticate T s1 h1 = (Ret true, s1, h2) ->
  read_machine_number T s1 h2 = (Ret cur, s1, h3) ->
  write_machine_number T str_lower n s1
    (after h3 [Print (lit "Current machine number: " ++ cur)])
  = (Ret true, s1, h4) ->
  read_machine_number T s1 h4 = (Exc x, s1, h5) ->
  is_Exception x = true ->
  let r := run (configure_machine T str_lower addr n pw) in
  fst r <> Ret true
  /\ In (PrintError x) (snd r)
  /\ exists d, encode (py_str n) = Some d
               /\ In (WriteGattChar MACHINE_NUM_CHAR_UUID d None) (snd r).
Proof.
  intros Ec Ea Er Ew Er2 Hx r. subst r.
  unfold after in Ew. cbn [rev app] in Ew.
  assert (Eb : configure_machine_body T str_lower n (new_config addr pw) []
               = (Exc x, s1, h5)).
  { unfold configure_machine_body. run_monad.
    rewrite Ec, Ea. cbn [negb]. rewrite Er, Ew, Er2. reflexivity. }
  destruct (disconnect T s1 (snd (handled false (Exc x) h5)))
    as [[od sd] hd] eqn:Ed.
  rewrite (configure_machine_run _ _ _ _ _ _ _ _ _ _ _ Eb Ed). cbn [fst snd].
  pose proof (disconnect_grows _ _ _ _ _ _ Ed) as G.
  unfold handled in *. rewrite Hx in *. cbn [fst snd] in *.
  split; [destruct od; cbn [finally]; discriminate | split].
  - eapply grows_keeps; [exact G | now left].
  - destruct (write_machine_number_wrote _ _ _ _ _ _ Ew) as [d [He Hin]].
    exists d. split; [exact He |].
    eapply grows_keeps; [exact G |]. right.
    destruct (read_machine_number_frame _ _ _ _ _ _ Er2) as [_ G5].
    eapply grows_keeps; [exact G5 | exact Hin].
Qed.

(** X12.  A number whose text cannot be encoded is never written: no run of
    [configure_machine] with such a number writes the machine-number
    attribute or returns [True]. *)
Theorem unencodable_number_not_written (addr : str) (n : pyval) (pw : str) :
  encode (py_str n) = None ->
  let r := run (configure_machine T str_lower addr n pw) in
  Forall (no_write_to MACHINE_NUM_CHAR_UUID) (snd r)
  /\ fst r <> Ret true.
Proof.
  intros He r. subst r. split.
  - apply Forall_forall. intros [] Hin; cbn; auto.
    intros ->. apply configure_machine_writes in Hin. congruence.
  - intros Hr. apply configure_machine_true_wrote in Hr.
    destruct Hr as [s [h [h' Ew]]].
    apply write_machine_number_wrote in Ew. destruct Ew as [d [Hd _]].
    congruence.
Qed.

End Further.






(** ** Closing the link *)

Lemma link_open_idle h :
  Forall no_connect h -> Forall no_ask h -> link_open h = false.
Proof.
  induction h as [|e h IH]; [reflexivity |].
  intros Hc Ha. inversion Hc; subst. inversion Ha; subst.
  destruct e; cbn in *; try contradiction; auto.
Qed.

Ltac answered :=
  let E := fresh "E" in
  intros E; inversion E; subst; clear E;
  cbn [answered_by]; repeat split; auto; symmetry; assumption.

Section Closing.

Variable T : Bleak.
Variable str_lower : str -> str.

Lemma connect_answered s h o s' h' :
  answered_by T h -> connect T s h = (o, s', h') -> answered_by T h'.
Proof. intros A. unfold connect. exec; answered. Qed.

Lemma authenticate_answered s h o s' h' :
  answered_by T h -> authenticate T s h = (o, s', h') -> answered_by T h'.
Proof. intros A. unfold authenticate. exec; answered. Qed.

Lemma read_machine_number_answered s h o s' h' :
  answered_by T h -> read_machine_number T s h = (o, s', h') ->
  answered_by T h'.
Proof. intros A. unfold read_machine_number. exec; answered. Qed.

Lemma write_machine_number_answered n s h o s' h' :
  answered_by T h -> write_machine_number T str_lower n s h = (o, s', h') ->
  answered_by T h'.
Proof. intros A. unfold write_machine_number. exec; answered. Qed.

Lemma disconnect_answered s h o s' h' :
  answered_by T h -> disconnect T s h = (o, s', h') -> answered_by T h'.
Proof. intros A. unfold disconnect. exec; answered. Qed.

Lemma handled_answered {A} (dflt : A) ob hb :
  answered_by T hb -> answered_by T (snd (handled dflt ob hb)).
Proof.
  intros H. unfold handled.
  destruct ob as [a|e]; [| destruct (is_Exception e)]; cbn; auto.
Qed.

Lemma configure_body_answered n s h o s' h' :
  answered_by T h ->
  configure_machine_body T str_lower n s h = (o, s', h') ->
  answered_by T h'.
Proof.
  intros A. unfold configure_machine_body. run_monad.
  destruct (connect T s h) as [[[[]|x] s1] h1] eqn:Ec;
    pose proof (connect_answered _ _ _ _ _ A Ec) as A1; [| answered].
  destruct (authenticate T s1 h1) as [[[b|x] s2] h2] eqn:Ea;
    pose proof (authenticate_answered _ _ _ _ _ A1 Ea) as A2; [| answered].
  destruct b; cbn [negb]; [| answered].
  destruct (read_machine_number T s2 h2) as [[[cur|x] s3] h3] eqn:Er;
    pose proof (read_machine_number_answered _ _ _ _ _ A2 Er) as A3;
    [| answered].
  destruct (write_machine_number T str_lower n s3 _)
    as [[[w|x] s4] h4] eqn:Ew;
    [| apply write_machine_number_answered in Ew;
       [answered | cbn; auto] ].
  apply write_machine_number_answered in Ew; [| cbn; auto].
  destruct w; [| answered].
  destruct (read_machine_number T s4 h4) as [[[new|x] s5] h5] eqn:Er2;
    pose proof (read_machine_number_answered _ _ _ _ _ Ew Er2) as A5;
    answered.
Qed.

Lemma read_body_answered s h o s' h' :
  answered_by T h ->
  read_configuration_body T s h = (o, s', h') ->
  answered_by T h'.
Proof.
  intros A. unfold read_configuration_body. run_monad.
  destruct (connect T s h) as [[[[]|x] s1] h1] eqn:Ec;
    pose proof (connect_answered _ _ _ _ _ A Ec) as A1; [| answered].
  destruct (authenticate T s1 h1) as [[[b|x] s2] h2] eqn:Ea;
    pose proof (authenticate_answered _ _ _ _ _ A1 Ea) as A2; [| answered].
  destruct b; [| answered].
  destruct (read_machine_number T s2 h2) as [[[cur|x] s3] h3] eqn:Er;
    pose proof (read_machine_number_answered _ _ _ _ _ A2 Er) as A3;
    answered.
Qed.

(** Neither [try] block asks the handle about the link or disconnects. *)
Lemma configure_body_no_ask n s h o s' h' :
  configure_machine_body T str_lower n s h = (o, s', h') ->
  grows no_ask h h'.
Proof.
  unfold configure_machine_body. run_monad.
  destruct (connect T s h) as [[[[]|x] s1] h1] eqn:Ec;
    pose proof (connect_alphabet _ _ _ _ _ _ Ec) as G1;
    assert (G1' : grows no_ask h h1) by (weaken_with G1);
    [| intros E; inversion E; subst; exact G1'].
  destruct (authenticate T s1 h1) as [[[b|x] s2] h2] eqn:Ea;
    pose proof (authenticate_alphabet _ _ _ _ _ _ Ea) as G2;
    assert (G2' : grows no_ask h h2)
      by (eapply grows_trans; [exact G1' | weaken_with G2]);
    [| intros E; inversion E; subst; exact G2'].
  destruct b; cbn [negb];
    [| intros E; inversion E; subst; constructor; [exact I | exact G2']].
  destruct (read_machine_number T s2 h2) as [[[cur|x] s3] h3] eqn:Er;
    pose proof (read_machine_number_alphabet _ _ _ _ _ _ Er) as G3;
    assert (G3' : grows no_ask h h3)
      by (eapply grows_trans; [exact G2' | weaken_with G3]);
    [| intros E; inversion E; subst; exact G3'].
  destruct (write_machine_number T str_lower n s3 _)
    as [[[w|x] s4] h4] eqn:Ew;
    pose proof (write_machine_number_alphabet _ _ _ _ _ _ _ _ Ew) as G4;
    assert (G4' : grows no_ask h h4)
      by ((eapply grows_trans; [| weaken_with G4]);
          apply grows_cons; [exact I | exact G3']);
    [| intros E; inversion E; subst; exact G4'].
  destruct w; [| intros E; inversion E; subst; exact G4'].
  destruct (read_machine_number T s4 h4) as [[[new|x] s5] h5] eqn:Er2;
    pose proof (read_machine_number_alphabet _ _ _ _ _ _ Er2) as G5;
    assert (G5' : grows no_ask h h5)
      by (eapply grows_trans; [exact G4' | weaken_with G5]);
    intros E; inversion E; subst;
    [constructor; [exact I | exact G5'] | exact G5'].
Qed.

Lemma read_body_no_ask s h o s' h' :
  read_configuration_body T s h = (o, s', h') ->
  grows no_ask h h'.
Proof.
  unfold read_configuration_body. run_monad.
  destruct (connect T s h) as [[[[]|x] s1] h1] eqn:Ec;
    pose proof (connect_alphabet _ _ _ _ _ _ Ec) as G1;
    assert (G1' : grows no_ask h h1) by (weaken_with G1);
    [| intros E; inversion E; subst; exact G1'].
  destruct (authenticate T s1 h1) as [[[b|x] s2] h2] eqn:Ea;
    pose proof (authenticate_alphabet _ _ _ _ _ _ Ea) as G2;
    assert (G2' : grows no_ask h h2)
      by (eapply grows_trans; [exact G1' | weaken_with G2]);
    [| intros E; inversion E; subst; exact G2'].
  destruct b; [| intros E; inversion E; subst; exact G2'].
  destruct (read_machine_number T s2 h2) as [[[cur|x] s3] h3] eqn:Er;
    pose proof (read_machine_number_alphabet _ _ _ _ _ _ Er) as G3;
    assert (G3' : grows no_ask h h3)
      by (eapply grows_trans; [exact G2' | weaken_with G3]);
    intros E; inversion E; subst;
    [repeat (constructor; [exact I |]); exact G3' | exact G3'].
Qed.

(** What the [try] statement of a command leaves, and what [disconnect]
    makes of it. *)
Lemma closing_the_link (sb : FullWashBLEConfig) (h_try : history)
    (od : outcome unit) (sd : FullWashBLEConfig) (hd : history) :
  disconnect T sb h_try = (od, sd, hd) ->
  (client sb = None -> Forall no_connect h_try /\ Forall no_ask h_try) ->
  link_open hd = true ->
  exists x, od = Exc x
            /\ hd = after h_try [IsConnected true; Disconnect (Some x)].
Proof.
  intros Ed Hn. apply disconnect_cases in Ed.
  destruct Ed as [_ [[Hc [_ ->]] | [[_ ->] | [[_ ->] | [x [-> ->]]]]]].
  - destruct (Hn Hc) as [F1 F2]. rewrite (link_open_idle _ F1 F2).
    discriminate.
  - cbn. discriminate.
  - cbn. discriminate.
  - intros _. eauto.
Qed.

(** A command is its [try] statement and then [disconnect]. *)
Lemma command_closes {A} (dflt : A) (ob : outcome A)
    (sb : FullWashBLEConfig) (hb : history)
    (od : outcome unit) (sd : FullWashBLEConfig) (hd : history) :
  answered_by T hb ->
  (client sb = None -> grows no_connect [] hb) ->
  grows no_ask [] hb ->
  disconnect T sb (snd (handled dflt ob hb)) = (od, sd, hd) ->
  sd = sb
  /\ (exists e_disc,
        hd = after (snd (handled dflt ob hb)) e_disc
        /\ closing (snd (handled dflt ob hb)) e_disc)
  /\ answered_by T hd
  /\ (link_open hd = true ->
      exists x h,
        finally od (fst (handled dflt ob hb)) = Exc x
        /\ hd = after h [IsConnected true; Disconnect (Some x)]).
Proof.
  intros Ab Hn Ga Ed.
  assert (Gh : grows (fun e => no_connect e /\ no_ask e) hb
                 (snd (handled dflt ob hb))).
  { unfold handled. destruct ob as [a|e]; [| destruct (is_Exception e)];
      cbn [snd]; repeat constructor. }
  assert (F1 : client sb = None -> Forall no_connect (snd (handled dflt ob hb))).
  { intros Hc. eapply grows_Forall; [constructor |].
    eapply grows_trans; [exact (Hn Hc) |].
    eapply grows_weaken; [| exact Gh]. now intros e []. }
  assert (F2 : Forall no_ask (snd (handled dflt ob hb))).
  { eapply grows_Forall; [constructor |].
    eapply grows_trans; [exact Ga |].
    eapply grows_weaken; [| exact Gh]. now intros e []. }
  split; [| split; [| split]].
  - now destruct (disconnect_cases _ _ _ _ _ _ Ed).
  - exact (closing_of_disconnect _ _ _ _ _ _ Ed F1).
  - eapply disconnect_answered; [| exact Ed]. now apply handled_answered.
  - intros Ho.
    destruct (closing_the_link _ _ _ _ _ Ed (fun Hc => conj (F1 Hc) F2) Ho)
      as [x [-> ->]].
    exists x, (snd (handled dflt ob hb)). split; reflexivity.
Qed.

(** C7 (as the program has it).  Every run of [configure_machine] and of
    [read_configuration], whether its [try] block returned or raised, ends
    with the [disconnect] operation, run on the object and the history that
    the [try] statement left; every answer in the history of the run is the
    transport's own.  The last events are those of [disconnect]: either
    [connect()] was never called, or the handle says that the link is down,
    or the handle's [disconnect()] is called.  After the command no link is
    open, unless that [disconnect()] itself raised: then the link is left as
    it was, and the exception leaves the command. *)
Theorem commands_disconnect (addr : str) (n : pyval) (pw : str) :
  let rc := run (configure_machine T str_lower addr n pw) in
  let rr := run (read_configuration T addr pw) in
  ((exists s h_try o s' e_disc,
      disconnect T s h_try = (o, s', after h_try e_disc) /\
      snd rc = after h_try e_disc /\
      closing h_try e_disc)
   /\ (exists ob sb hb od,
         configure_machine_body T str_lower n (new_config addr pw) []
         = (ob, sb, hb)
         /\ disconnect T sb (snd (handled false ob hb)) = (od, sb, snd rc)
         /\ fst rc = finally od (fst (handled false ob hb)))
   /\ answered_by T (snd rc)
   /\ (link_open (snd rc) = true ->
       exists x h,
         fst rc = Exc x
         /\ snd rc = after h [IsConnected true; Disconnect (Some x)]))
  /\
  ((exists s h_try o s' e_disc,
      disconnect T s h_try = (o, s', after h_try e_disc) /\
      snd rr = after h_try e_disc /\
      closing h_try e_disc)
   /\ (exists ob sb hb od,
         read_configuration_body T (new_config addr pw) [] = (ob, sb, hb)
         /\ disconnect T sb (snd (handled tt ob hb)) = (od, sb, snd rr)
         /\ fst rr = finally od (fst (handled tt ob hb)))
   /\ answered_by T (snd rr)
   /\ (link_open (snd rr) = true ->
       exists x h,
         fst rr = Exc x
         /\ snd rr = after h [IsConnected true; Disconnect (Some x)])).
Proof.
  intros rc rr. subst rc rr. split.
  - destruct (configure_machine_body T str_lower n (new_config addr pw) [])
      as [[ob sb] hb] eqn:Eb.
    destruct (disconnect T sb (snd (handled false ob hb)))
      as [[od sd] hd] eqn:Ed.
    rewrite (configure_machine_run _ _ _ _ _ _ _ _ _ _ _ Eb Ed).
    cbn [fst snd].
    destruct (command_closes false ob sb hb od sd hd) as [-> [C [Ah Lo]]];
      [ exact (configure_body_answered _ _ [] _ _ _ I Eb)
      | intros Hc;
        exact (configure_body_handle _ _ _ _ _ _ _ _ Eb eq_refl Hc)
      | exact (configure_body_no_ask _ _ _ _ _ _ Eb)
      | exact Ed
      | ].
    split; [| split; [| split]].
    + destruct C as [e_disc [E C]].
      exists sb, (snd (handled false ob hb)), od, sb, e_disc.
      rewrite <- E. auto.
    + exists ob, sb, hb, od. auto.
    + exact Ah.
    + exact Lo.
  - destruct (read_configuration_body T (new_config addr pw) [])
      as [[ob sb] hb] eqn:Eb.
    destruct (disconnect T sb (snd (handled tt ob hb)))
      as [[od sd] hd] eqn:Ed.
    rewrite (read_configuration_run _ _ _ _ _ _ _ _ _ Eb Ed).
    cbn [fst snd].
    destruct (command_closes tt ob sb hb od sd hd) as [-> [C [Ah Lo]]];
      [ exact (read_body_answered _ [] _ _ _ I Eb)
      | intros Hc; exact (read_body_handle _ _ _ _ _ _ Eb eq_refl Hc)
      | exact (read_body_no_ask _ _ _ _ _ Eb)
      | exact Ed
      | ].
    split; [| split; [| split]].
    + destruct C as [e_disc [E C]].
      exists sb, (snd (handled tt ob hb)), od, sb, e_disc.
      rewrite <- E. auto.
    + exists ob, sb, hb, od. auto.
    + exact Ah.
    + exact Lo.
Qed.

End Closing.

(** ** The text codec *)

Lemma byte_val_of_Z z : 0 <= z < 256 -> byte_val (byte_of_Z z) = z.
Proof.
  intros Hz. unfold byte_val, byte_of_Z.
  destruct (Byte.of_N (Z.to_N z)) as [b|] eqn:E.
  - apply Byte.to_of_N in E. rewrite E. lia.
  - apply Byte.of_N_None_iff in E. lia.
Qed.

Lemma bytes_val_of_Z l :
  Forall (fun z => 0 <= z < 256) l -> map byte_val (map byte_of_Z l) = l.
Proof.
  induction 1 as [|z l Hz _ IH]; cbn [map]; [reflexivity |].
  now rewrite IH, byte_val_of_Z.
Qed.

Ltac decide_tests :=
  repeat match goal with
         | |- context [Z.eqb ?a ?b] =>
           destruct (Z.eqb_spec a b); try solve [exfalso; lia]
         | |- context [Z.ltb ?a ?b] =>
           destruct (Z.ltb_spec a b); try solve [exfalso; lia]
         | |- context [Z.leb ?a ?b] =>
           destruct (Z.leb_spec a b); try solve [exfalso; lia]
         | _ => progress cbn [andb orb]
         end.

Ltac octets :=
  repeat (apply Forall_cons; [lia |]); apply Forall_nil.

(** The digits of a code point in base 64. *)
Lemma base64_digits_2 c :
  c = 64 * (c / 64) + c mod 64 /\ 0 <= c mod 64 < 64.
Proof. Z.to_euclidean_division_equations; lia. Qed.

Lemma base64_digits_3 c :
  c = 4096 * (c / 4096) + 64 * ((c / 64) mod 64) + c mod 64
  /\ 0 <= (c / 64) mod 64 < 64 /\ 0 <= c mod 64 < 64.
Proof. Z.to_euclidean_division_equations; lia. Qed.

Lemma base64_digits_4 c :
  c = 262144 * (c / 262144) + 4096 * ((c / 4096) mod 64)
      + 64 * ((c / 64) mod 64) + c mod 64
  /\ 0 <= (c / 4096) mod 64 < 64
  /\ 0 <= (c / 64) mod 64 < 64 /\ 0 <= c mod 64 < 64.
Proof. Z.to_euclidean_division_equations; lia. Qed.

Lemma some_inj {A} (x y : A) : Some x = Some y -> x = y.
Proof. congruence. Qed.

Ltac decode_back :=
  split;
  [ octets
  | intros rest; cbn [app utf8_decode_Z]; unfold is_cont; cbv zeta;
    decide_tests; try reflexivity; do 2 f_equal; lia ].

(** One code point: its bytes are octets, and decoding them in front of any
    other bytes gives the code point back. *)
Lemma utf8_code_point_round_trip c l :
  utf8_encode_cp c = Some l ->
  Forall (fun z => 0 <= z < 256) l
  /\ forall rest,
       utf8_decode_Z (l ++ rest) = option_map (cons c) (utf8_decode_Z rest).
Proof.
  unfold utf8_encode_cp.
  destruct (Z.ltb_spec c 0); [discriminate |].
  destruct (Z.ltb_spec c 0x80).
  { intros E; apply some_inj in E; subst l. decode_back. }
  destruct (Z.ltb_spec c 0x800).
  { intros E; apply some_inj in E; subst l.
    pose proof (base64_digits_2 c) as D. revert D.
    generalize (c / 64) (c mod 64). intros q r D. decode_back. }
  assert (S : (0xD800 <=? c) && (c <=? 0xDFFF) = true
              \/ (c < 0xD800 \/ 0xDFFF < c)).
  { destruct (Z.leb_spec 0xD800 c); destruct (Z.leb_spec c 0xDFFF);
      cbn [andb]; auto. }
  destruct S as [-> | S]; [discriminate |].
  replace ((0xD800 <=? c) && (c <=? 0xDFFF)) with false
    by (symmetry; apply andb_false_iff; rewrite !Z.leb_gt; tauto).
  destruct (Z.ltb_spec c 0x10000).
  { intros E; apply some_inj in E; subst l.
    pose proof (base64_digits_3 c) as D. revert D.
    generalize (c / 4096) ((c / 64) mod 64) (c mod 64). intros q1 q2 r D.
    decode_back. }
  destruct (Z.ltb_spec c 0x110000); [| discriminate].
  intros E; apply some_inj in E; subst l.
  pose proof (base64_digits_4 c) as D. revert D.
  generalize (c / 262144) ((c / 4096) mod 64) ((c / 64) mod 64) (c mod 64).
  intros q0 q1 q2 r D. decode_back.
Qed.

Lemma utf8_encode_decode s l :
  utf8_encode_Z s = Some l ->
  Forall (fun z => 0 <= z < 256) l /\ utf8_decode_Z l = Some s.
Proof.
  revert l. induction s as [|c s IH]; intros l; cbn [utf8_encode_Z].
  - intros E; injection E as <-. split; [constructor | reflexivity].
  - destruct (utf8_encode_cp c) as [lc|] eqn:Ec; [| discriminate].
    destruct (utf8_encode_Z s) as [ls|] eqn:Es; [| discriminate].
    intros E; injection E as <-.
    destruct (utf8_code_point_round_trip _ _ Ec) as [Fc Hc].
    destruct (IH _ eq_refl) as [Fs Hs].
    split; [apply Forall_app; now split |].
    rewrite Hc, Hs. reflexivity.
Qed.

(** X13.  Encoding and decoding are inverse on what the tool sends: when a
    text encodes (as the password and the machine number must, to be
    written), decoding the bytes gives the same text back, so a controller
    that echoes an attribute is read as it was written. *)
Theorem encode_decode_round_trip (s : str) (b : bytes) :
  encode s = Some b -> decode b = Some s.
Proof.
  unfold encode, decode.
  destruct (utf8_encode_Z s) as [l|] eqn:E; [| discriminate].
  intros H; injection H as <-.
  destruct (utf8_encode_decode _ _ E) as [F D].
  now rewrite bytes_val_of_Z.
Qed.

(** The text of an integer is written as its ASCII characters. *)
Lemma encode_int_text z d :
  encode (str_of_Z z) = Some d -> map byte_val d = str_of_Z z.
Proof.
  unfold encode. rewrite (utf8_encode_int_text _ (str_of_Z_chars z)).
  cbn [option_map]. intros E; injection E as <-.
  apply bytes_val_of_Z.
  pose proof (str_of_Z_chars z) as H. rewrite forallb_forall in H.
  apply Forall_forall. intros c Hc. specialize (H c Hc).
  apply int_char_cases in H. cbn [In] in H.
  repeat (destruct H as [<- | H]; [lia |]). contradiction.
Qed.

(** X14.  Called with an integer, [write_machine_number] writes its decimal
    text in ASCII: whatever the call adds to the writes of the run goes to
    the machine-number attribute and holds the characters of [str(z)]. *)
Theorem write_int_as_decimal_text (T : Bleak) (str_lower : str -> str)
    (z : Z) (s : FullWashBLEConfig) (h : history) (o : outcome bool)
    (s' : FullWashBLEConfig) (h' : history) (u : str) (d : bytes)
    (a : option exn) :
  write_machine_number T str_lower (PyInt z) s h = (o, s', h') ->
  In (WriteGattChar u d a) h' ->
  In (WriteGattChar u d a) h
  \/ (u = MACHINE_NUM_CHAR_UUID /\ map byte_val d = str_of_Z z).
Proof.
  intros E Hin. apply write_machine_number_alphabet in E.
  destruct (grows_In _ _ _ _ E Hin) as [H | [-> H]]; [now left | right].
  split; [reflexivity | now apply encode_int_text].
Qed.

(** ** Concrete runs *)

Local Transparent lit.

(** [authenticate] on a controller that answers "Authenticated". *)
Lemma authenticate_returns_witness :
  exists b,
    fst (fst (authenticate good_link connected_config [])) = Ret b
    /\ b = true.
Proof.
  destruct (authenticate_returns good_link connected_config
              {| client_address := sample_address |} []
              (bytes_of DEFAULT_PASSWORD) (bytes_of (lit "Authenticated"))
              (lit "Authenticated"))
    as [b [verdict [E [Ht _]]]];
    try (vm_compute; reflexivity).
  exists b. rewrite E. split; [reflexivity |].
  apply Ht. exists [], []. vm_compute. reflexivity.
Defined.

(** [write_machine_number] with the integer 42, on a controller whose status
    spells SUCCESS in capitals. *)
Lemma write_machine_number_returns_witness :
  exists b,
    fst (fst (write_machine_number good_link ascii_lower (PyInt 42)
                connected_config [])) = Ret b
    /\ b = true.
Proof.
  destruct (write_machine_number_returns good_link ascii_lower
              connected_config {| client_address := sample_address |}
              (PyInt 42) [] (bytes_of (lit "42"))
              (bytes_of (lit "Machine number: SUCCESS"))
              (lit "Machine number: SUCCESS"))
    as [b [verdict [E [_ [Ht _]]]]];
    try (vm_compute; reflexivity).
  exists b. rewrite E. split; [reflexivity |].
  apply Ht. exists (lit "machine number: "), []. vm_compute. reflexivity.
Defined.

(** On a controller that accepts the password, the new number is written
    after [authenticate] has returned [True]. *)
Lemma configure_machine_gated_witness :
  exists s1 h1 h2 rest,
    connect good_link (new_config sample_address DEFAULT_PASSWORD) []
    = (Ret tt, s1, h1)
    /\ authenticate good_link s1 h1 = (Ret true, s1, h2)
    /\ Forall (no_write_to MACHINE_NUM_CHAR_UUID) h2
    /\ snd (run (configure_machine good_link ascii_lower sample_address
                   (PyStr (lit "42")) DEFAULT_PASSWORD))
       = after h2 rest
    /\ In (WriteGattChar MACHINE_NUM_CHAR_UUID (bytes_of (lit "42")) None) rest.
Proof.
  apply (proj1 (configure_machine_gated good_link ascii_lower sample_address
                  (PyStr (lit "42")) DEFAULT_PASSWORD)).
  vm_compute. auto 20.
Defined.

(** C3, as stated, fails on a controller that rejects the password: the run
    in which [authenticate] returns [False] still holds an attribute write
    (the password), and when the closing [disconnect()] raises, the command
    does not return [False]: the exception leaves it. *)
Lemma configure_machine_gated_counterexample :
  let cfg := new_config sample_address DEFAULT_PASSWORD in
  let number := PyStr (lit "42") in
  let r :=
    run (configure_machine denied_link ascii_lower sample_address number
           DEFAULT_PASSWORD) in
  let r' :=
    run (configure_machine (with_failing_disconnect denied_link link_lost)
           ascii_lower sample_address number DEFAULT_PASSWORD) in
  (exists s1 h1 h2,
     connect denied_link cfg [] = (Ret tt, s1, h1)
     /\ authenticate denied_link s1 h1 = (Ret false, s1, h2))
  /\ In (WriteGattChar AUTH_CHAR_UUID (bytes_of DEFAULT_PASSWORD) None) (snd r)
  /\ (exists s1 h1 h2,
        connect (with_failing_disconnect denied_link link_lost) cfg []
        = (Ret tt, s1, h1)
        /\ authenticate (with_failing_disconnect denied_link link_lost) s1 h1
           = (Ret false, s1, h2))
  /\ fst r' = Exc link_lost
  /\ fst r' <> Ret false.
Proof.
  cbv zeta. split; [| split; [| split; [| split]]].
  - set (L := denied_link).
    set (c := connect L (new_config sample_address DEFAULT_PASSWORD) []).
    exists (snd (fst c)), (snd c),
      (snd (authenticate L (snd (fst c)) (snd c))).
    split; vm_compute; reflexivity.
  - vm_compute. auto 20.
  - set (L := with_failing_disconnect denied_link link_lost).
    set (c := connect L (new_config sample_address DEFAULT_PASSWORD) []).
    exists (snd (fst c)), (snd c),
      (snd (authenticate L (snd (fst c)) (snd c))).
    split; vm_compute; reflexivity.
  - vm_compute. reflexivity.
  - vm_compute. discriminate.
Qed.

(** [--read] without [--address]. *)
Lemma missing_address_exits_witness :
  let r := run (main good_link ascii_lower (ns false true None None)) in
  fst r = Exc (SystemExit 1)
  /\ exit_status (fst r) <> 0
  /\ exists msg, trace (snd r) = [Print msg; PrintHelp].
Proof.
  apply (missing_address_exits good_link ascii_lower
           (ns false true None None));
    [reflexivity | left; reflexivity | reflexivity].
Defined.

(** A [connect()] that raises is caught, printed, and answered by [False]. *)
Lemma commands_catch_exceptions_witness :
  let L := with_failing_connect good_link link_lost in
  let r := run (configure_machine L ascii_lower sample_address
                  (PyStr (lit "42")) DEFAULT_PASSWORD) in
  In (PrintError link_lost) (snd r)
  /\ (fst r = Ret false \/
      exists x h, fst r = Exc x /\
                  snd r = after h [IsConnected true; Disconnect (Some x)]).
Proof.
  cbv zeta.
  eapply (proj1 (commands_catch_exceptions
                   (with_failing_connect good_link link_lost) ascii_lower
                   sample_address (PyStr (lit "42")) DEFAULT_PASSWORD));
    vm_compute; reflexivity.
Defined.

(** C5, as stated, fails: a scan has no handler, so an exception raised by
    the discovery leaves it unprinted; in [configure_machine] an exception
    raised by the closing [disconnect()] leaves the command, and so does one
    that does not derive from [Exception]. *)
Lemma commands_catch_exceptions_counterexample :
  run (scan_devices (with_failing_discover good_link bluetooth_off))
  = (Exc bluetooth_off,
     after [] [Print (lit "Scanning for BLE devices...");
               Discover 5 (inl bluetooth_off)])
  /\ fst (run (configure_machine (with_failing_disconnect good_link link_lost)
                 ascii_lower sample_address (PyStr (lit "42"))
                 DEFAULT_PASSWORD))
     = Exc link_lost
  /\ fst (run (configure_machine
                 (with_failing_connect good_link keyboard_interrupt)
                 ascii_lower sample_address (PyStr (lit "42"))
                 DEFAULT_PASSWORD))
     = Exc keyboard_interrupt
  /\ fst (run (read_configuration
                 (with_failing_disconnect good_link link_lost)
                 sample_address DEFAULT_PASSWORD))
     = Exc link_lost.
Proof.
  repeat split; vm_compute; reflexivity.
Qed.

(** A scan that sees a FullWash machine, a nameless device and a speaker. *)
Lemma scan_devices_returns_witness :
  fst (run (scan_devices good_link))
  = Ret [ {| dev_name := Some (lit "FullWash Machine 07");
             dev_address := lit "AA:BB:CC:DD:EE:01" |} ]
  /\ In (Discover 5 (inr sample_devices)) (snd (run (scan_devices good_link))).
Proof.
  destruct (scan_devices_returns good_link sample_devices eq_refl)
    as [E [D _]].
  split; [rewrite E; vm_compute; reflexivity | exact D].
Defined.

Lemma scan_devices_nameless_witness :
  let d := {| dev_name := None; dev_address := lit "AA:BB:CC:DD:EE:02" |} in
  exists found,
    fst (run (scan_devices good_link)) = Ret found
    /\ ~ In d found
    /\ is_fullwash d = false
    /\ In (Print (lit "    " ++ ljust 30 (lit "(Unknown)") ++ lit " | "
                  ++ dev_address d))
          (snd (run (scan_devices good_link))).
Proof.
  apply (scan_devices_nameless good_link sample_devices
           {| dev_name := None; dev_address := lit "AA:BB:CC:DD:EE:02" |});
    [reflexivity | right; left; reflexivity | reflexivity].
Defined.

(** [--configure 42]: the two characters are what is written. *)
Lemma machine_number_written_verbatim_witness :
  exists text,
    args_configure configure_42 = Some text
    /\ encode text = Some (bytes_of (lit "42"))
    /\ forall z, text = str_of_Z z ->
                 encode (str_of_Z z) = Some (bytes_of (lit "42")).
Proof.
  apply (machine_number_written_verbatim good_link ascii_lower configure_42
           (bytes_of (lit "42")) None);
    [reflexivity | reflexivity | vm_compute; auto 30].
Defined.

(** C8, as stated, fails: [--configure abc] writes the three letters, which
    are the text of no integer. *)
Lemma machine_number_written_verbatim_counterexample :
  In (WriteGattChar MACHINE_NUM_CHAR_UUID (bytes_of (lit "abc")) None)
     (snd (run (main good_link ascii_lower configure_abc)))
  /\ forall z, encode (str_of_Z z) <> Some (bytes_of (lit "abc")).
Proof.
  split; [vm_compute; auto 30 |].
  intros z H. destruct (encode_str_of_Z z) as [b [E Hb]].
  rewrite E in H. injection H as ->. vm_compute in Hb. discriminate Hb.
Qed.

(** A rejected password: [configure_machine] returns [False], the exit
    status is 0. *)
Lemma exit_status_zero_witness :
  fst (run (configure_machine denied_link ascii_lower sample_address
              (PyStr (lit "42")) DEFAULT_PASSWORD)) = Ret false
  /\ exit_status (fst (run (main denied_link ascii_lower configure_42))) = 0.
Proof.
  split; [vm_compute; reflexivity |].
  destruct (proj1 (proj2 (proj2
              (exit_status_zero denied_link ascii_lower configure_42
                 (or_intror eq_refl))))
              eq_refl eq_refl eq_refl) as [_ [H _]].
  apply (H false). vm_compute. reflexivity.
Defined.

(** C9, as stated, fails: with the address present, a configure command
    whose closing [disconnect()] raises ends with that exception at the top,
    and the exit status is 1. *)
Lemma exit_status_zero_counterexample :
  truthy (args_address configure_42) = true
  /\ fst (run (main (with_failing_disconnect good_link link_lost)
                 ascii_lower configure_42)) = Exc link_lost
  /\ exit_status
       (fst (run (main (with_failing_disconnect good_link link_lost)
                    ascii_lower configure_42))) = 1.
Proof.
  repeat split; vm_compute; reflexivity.
Qed.

(** *** Further runs *)

(** A [connect()] that raises: nothing is sent. *)
Lemma connect_failure_sends_nothing_witness :
  let L := with_failing_connect good_link link_lost in
  let rc := run (configure_machine L ascii_lower sample_address
                   (PyStr (lit "42")) DEFAULT_PASSWORD) in
  let rr := run (read_configuration L sample_address DEFAULT_PASSWORD) in
  Forall no_gatt (snd rc)
  /\ Forall no_gatt (snd rr)
  /\ fst rc <> Ret true
  /\ (is_Exception link_lost = true ->
      In (PrintError link_lost) (snd rc) /\ In (PrintError link_lost) (snd rr)).
Proof.
  set (L := with_failing_connect good_link link_lost).
  set (c := connect L (new_config sample_address DEFAULT_PASSWORD) []).
  apply (connect_failure_sends_nothing L ascii_lower sample_address
           (PyStr (lit "42")) DEFAULT_PASSWORD link_lost
           (snd (fst c)) (snd c)).
  vm_compute. reflexivity.
Defined.

(** Reading the configuration writes the password and nothing else. *)
Lemma read_configuration_read_only_witness :
  AUTH_CHAR_UUID = AUTH_CHAR_UUID
  /\ AUTH_CHAR_UUID <> MACHINE_NUM_CHAR_UUID
  /\ encode DEFAULT_PASSWORD = Some (bytes_of DEFAULT_PASSWORD).
Proof.
  apply (read_configuration_read_only good_link sample_address
           DEFAULT_PASSWORD AUTH_CHAR_UUID (bytes_of DEFAULT_PASSWORD) None).
  vm_compute. auto 20.
Defined.

(** The number is read after the controller has accepted the password. *)
Lemma read_configuration_gated_witness :
  exists s1 h1 h2 rest,
    connect good_link (new_config sample_address DEFAULT_PASSWORD) []
    = (Ret tt, s1, h1)
    /\ authenticate good_link s1 h1 = (Ret true, s1, h2)
    /\ Forall (no_read_of MACHINE_NUM_CHAR_UUID) h2
    /\ snd (run (read_configuration good_link sample_address DEFAULT_PASSWORD))
       = after h2 rest
    /\ In (ReadGattChar MACHINE_NUM_CHAR_UUID (inr (bytes_of (lit "7")))) rest.
Proof.
  apply (read_configuration_gated good_link sample_address DEFAULT_PASSWORD
           (inr (bytes_of (lit "7")))).
  vm_compute. auto 20.
Defined.

(** [--scan --read --configure 42 --address ...] only scans. *)
Lemma scan_takes_precedence_witness :
  Forall scan_event
    (snd (run (main good_link ascii_lower
                 (ns true true (Some (lit "42")) (Some sample_address))))).
Proof.
  apply (scan_takes_precedence good_link ascii_lower
           (ns true true (Some (lit "42")) (Some sample_address))).
  reflexivity.
Defined.

(** [--configure 42 --address ...] on a controller that accepts it. *)
Lemma only_configure_writes_the_number_witness :
  args_scan configure_42 = false
  /\ args_read configure_42 = false
  /\ truthy (args_configure configure_42) = true
  /\ truthy (args_address configure_42) = true.
Proof.
  apply (only_configure_writes_the_number good_link ascii_lower configure_42
           (bytes_of (lit "42")) None).
  vm_compute. auto 30.
Defined.

(** The scan of the sample devices finds one machine. *)
Lemma scan_devices_summary_witness :
  let found := filter is_fullwash sample_devices in
  let h := snd (run (scan_devices good_link)) in
  fst (run (scan_devices good_link)) = Ret found
  /\ (found <> [] ->
      hd_error h
      = Some (Print ([10] ++ lit "✓ Found "
                     ++ str_of_Z (Z.of_nat (List.length found))
                     ++ lit " FullWash machine(s)")))
  /\ (found = [] ->
      firstn 6 h
      = [Print (lit "  4. Check that Bluetooth is enabled");
         Print (lit "  3. Move closer to the device");
         Print (lit "  2. Wait 5-10 seconds after power-on");
         Print (lit "  1. Ensure the machine is powered on");
         Print ([10] ++ lit "Troubleshooting:");
         Print ([10] ++ lit "✗ No FullWash machines found")]).
Proof.
  apply (scan_devices_summary good_link sample_devices). reflexivity.
Defined.

(** A controller whose status is not UTF-8. *)
Lemma authenticate_garbled_status_witness :
  authenticate (with_status good_link garbled) connected_config [] =
    (Exc (UnicodeDecodeError garbled), connected_config,
     after [] [Print (lit "Authenticating...");
               WriteGattChar AUTH_CHAR_UUID (bytes_of DEFAULT_PASSWORD) None;
               Sleep (1 # 2);
               ReadGattChar STATUS_CHAR_UUID (inr garbled)]).
Proof.
  apply (authenticate_garbled_status (with_status good_link garbled)
           connected_config {| client_address := sample_address |} []
           (bytes_of DEFAULT_PASSWORD) garbled);
    vm_compute; reflexivity.
Defined.

(** The number is written, then the read-back raises. *)
Lemma readback_failure_after_write_witness :
  let L := with_failing_readback good_link link_lost in
  let r := run (configure_machine L ascii_lower sample_address
                  (PyStr (lit "42")) DEFAULT_PASSWORD) in
  fst r <> Ret true
  /\ In (PrintError link_lost) (snd r)
  /\ exists d, encode (py_str (PyStr (lit "42"))) = Some d
               /\ In (WriteGattChar MACHINE_NUM_CHAR_UUID d None) (snd r).
Proof.
  set (L := with_failing_readback good_link link_lost).
  set (c := connect L (new_config sample_address DEFAULT_PASSWORD) []).
  set (au := authenticate L (snd (fst c)) (snd c)).
  set (rd := read_machine_number L (snd (fst c)) (snd au)).
  set (wr := write_machine_number L ascii_lower (PyStr (lit "42"))
               (snd (fst c))
               (after (snd rd) [Print (lit "Current machine number: "
                                       ++ lit "7")])).
  set (rb := read_machine_number L (snd (fst c)) (snd wr)).
  apply (readback_failure_after_write L ascii_lower sample_address
           (PyStr (lit "42")) DEFAULT_PASSWORD
           (snd (fst c)) (snd c) (snd au) (lit "7") (snd rd) (snd wr)
           (snd rb) link_lost);
    vm_compute; reflexivity.
Defined.

(** A number with a lone surrogate is not written. *)
Lemma unencodable_number_not_written_witness :
  let r := run (configure_machine good_link ascii_lower sample_address
                  (PyStr lone_surrogate) DEFAULT_PASSWORD) in
  Forall (no_write_to MACHINE_NUM_CHAR_UUID) (snd r)
  /\ fst r <> Ret true.
Proof.
  apply (unencodable_number_not_written good_link ascii_lower sample_address
           (PyStr lone_surrogate) DEFAULT_PASSWORD).
  vm_compute. reflexivity.
Defined.

(** A text with a check mark and an accent. *)
Lemma encode_decode_round_trip_witness :
  decode (bytes_of (lit "✓ numéro 42")) = Some (lit "✓ numéro 42").
Proof.
  apply (encode_decode_round_trip (lit "✓ numéro 42")).
  vm_compute. reflexivity.
Defined.

(** [write_machine_number(-42)] *)
Lemma write_int_as_decimal_text_witness :
  In (WriteGattChar MACHINE_NUM_CHAR_UUID (bytes_of (lit "-42")) None) []
  \/ (MACHINE_NUM_CHAR_UUID = MACHINE_NUM_CHAR_UUID
      /\ map byte_val (bytes_of (lit "-42")) = str_of_Z (-42)).
Proof.
  set (w := write_machine_number good_link ascii_lower (PyInt (-42))
              connected_config []).
  apply (write_int_as_decimal_text good_link ascii_lower (-42)
           connected_config [] (fst (fst w)) (snd (fst w)) (snd w)
           MACHINE_NUM_CHAR_UUID (bytes_of (lit "-42")) None).
  - vm_compute. reflexivity.
  - vm_compute. auto 20.
Defined.

(** C7, as stated, fails: when the closing [disconnect()] raises, the
    [connect()] of the run has completed, no [disconnect()] has, and the link
    is still open when the exception leaves the command. *)
Lemma commands_disconnect_counterexample :
  let L := with_failing_disconnect good_link link_lost in
  let rc := run (configure_machine L ascii_lower sample_address
                   (PyStr (lit "42")) DEFAULT_PASSWORD) in
  let rr := run (read_configuration L sample_address DEFAULT_PASSWORD) in
  (In (Connect None) (snd rc) /\ ~ In (Disconnect None) (snd rc)
   /\ link_open (snd rc) = true /\ fst rc = Exc link_lost)
  /\ (In (Connect None) (snd rr) /\ ~ In (Disconnect None) (snd rr)
      /\ link_open (snd rr) = true /\ fst rr = Exc link_lost).
Proof.
  cbv zeta. repeat split; try (vm_compute; reflexivity);
    try (vm_compute; auto 40);
    vm_compute; intros H;
    repeat match goal with
           | H : _ \/ _ |- _ => destruct H as [H | H]
           | H : _ = _ |- _ => discriminate H
           | H : False |- _ => destruct H
           end.
Qed.

(** On that link, the exception of [disconnect()] is what leaves the
    command; on a link whose [disconnect()] completes, no link is open at the
    end. *)
Lemma commands_disconnect_witness :
  (exists x h,
     fst (run (configure_machine (with_failing_disconnect good_link link_lost)
                 ascii_lower sample_address (PyStr (lit "42"))
                 DEFAULT_PASSWORD)) = Exc x
     /\ snd (run (configure_machine
                    (with_failing_disconnect good_link link_lost)
                    ascii_lower sample_address (PyStr (lit "42"))
                    DEFAULT_PASSWORD))
        = after h [IsConnected true; Disconnect (Some x)])
  /\ link_open (snd (run (configure_machine good_link ascii_lower
                            sample_address (PyStr (lit "42"))
                            DEFAULT_PASSWORD))) = false.
Proof.
  split; [| vm_compute; reflexivity].
  destruct (commands_disconnect (with_failing_disconnect good_link link_lost)
              ascii_lower sample_address (PyStr (lit "42")) DEFAULT_PASSWORD)
    as [[_ [_ [_ H]]] _].
  apply H. vm_compute. reflexivity.
Defined.
